(** * ctransformers: the RingBuffer and LLM classes of models/llm.h

    A shallow embedding of [src/models/llm.h] and the proofs of its
    specification.

    Conventions.
    - A C++ [int] is a [Z]; an arithmetic result that leaves the 32-bit
      signed range, a remainder by zero, an index or an iterator range
      outside its vector are undefined behaviour and are modelled by
      [None] (pure code) or [Undefined] (session code).
    - [std::vector<T>] is [list T]; [std::unordered_set<id>] is [gset Z];
      [std::map] is [gmap].
    - [float] is the IEEE model [spec_float] of the Standard Library.
    - Calls into the external collaborators (model loading, forward pass,
      random generator, sampler) are recorded in a call log carried by the
      world state. *)

From Stdlib Require Import ZArith List Bool Lia.
From Stdlib Require Import Floats.SpecFloat.
From stdpp Require Import base gmap sets list strings.

Local Open Scope Z_scope.

(** ** Machine integers *)

Module CInt.

Definition INT_MIN : Z := - 2 ^ 31.
Definition INT_MAX : Z := 2 ^ 31 - 1.

Definition fits (z : Z) : bool := (INT_MIN <=? z) && (z <=? INT_MAX).

(** The result of a signed operation: defined only inside the range. *)
Definition checked (z : Z) : option Z := if fits z then Some z else None.

Definition add (a b : Z) : option Z := checked (a + b).
Definition sub (a b : Z) : option Z := checked (a - b).

(** C++ [%]: truncated remainder, undefined for a zero divisor and when
    the quotient overflows. *)
Definition rem (a b : Z) : option Z :=
  if b =? 0 then None
  else if fits (Z.quot a b) then Some (Z.rem a b) else None.

(** Conversion of an unsigned or wider value to [int]: modulo 2^32. *)
Definition to_int (z : Z) : Z := (z + 2 ^ 31) mod 2 ^ 32 - 2 ^ 31.

(** Conversion to a 32-bit unsigned value. *)
Definition to_uint32 (z : Z) : Z := z mod 2 ^ 32.

End CInt.

(** ** Vectors *)

Module Vec.

(** [v[i] = x]: the index must be inside the vector. *)
Definition store {A} (v : list A) (i : Z) (x : A) : option (list A) :=
  if (0 <=? i) && (i <? Z.of_nat (length v))
  then Some (<[Z.to_nat i := x]> v)
  else None.

(** The elements of the iterator range [[v.begin() + first,
    v.begin() + last)]: both iterators must point into the vector (or
    one past its end), in order. *)
Definition range {A} (v : list A) (first last : Z) : option (list A) :=
  if (0 <=? first) && (first <=? last) && (last <=? Z.of_nat (length v))
  then Some (take (Z.to_nat (last - first)) (drop (Z.to_nat first) v))
  else None.

End Vec.

(** ** Token ids and the vocabulary *)

(** [gpt_vocab::id] is a 32-bit integer used only for equality and as a key. *)
Abbreviation gpt_vocab_id := Z.

(** Modelled from the spec: the declaration of [gpt_vocab] is in common.h,
    which is not part of the sources. The vocabulary is a bidirectional
    mapping between token ids and token texts together with the registry
    of special tokens; llm.h reads its members [token_to_id],
    [id_to_token] and [special_tokens]. *)
Record gpt_vocab : Type := {
  token_to_id : gmap string gpt_vocab_id;
  id_to_token : gmap gpt_vocab_id string;
  special_tokens : list string
}.

(** ** RingBuffer *)

Module RingBuffer.

Record t : Type := Make {
  capacity_ : Z;
  tokens_ : list gpt_vocab_id;
  pos_ : Z
}.

Definition Size (rb : t) : Z := CInt.to_int (Z.of_nat (length (tokens_ rb))).

Definition Clear (rb : t) : t :=
  {| capacity_ := capacity_ rb; tokens_ := []; pos_ := 0 |}.

Definition Init (capacity : Z) (rb : t) : t :=
  Clear {| capacity_ := capacity; tokens_ := tokens_ rb; pos_ := pos_ rb |}.

Definition Add (token : gpt_vocab_id) (rb : t) : option t :=
  tokens' ← (if Size rb <? capacity_ rb
             then Some (tokens_ rb ++ [token])
             else Vec.store (tokens_ rb) (pos_ rb) token);
  next ← CInt.add (pos_ rb) 1;
  pos' ← CInt.rem next (capacity_ rb);
  Some {| capacity_ := capacity_ rb; tokens_ := tokens'; pos_ := pos' |}.

Definition GetRecent (n : Z) (rb : t) : option (gset gpt_vocab_id) :=
  let size := Size rb in
  let n := Z.min size n in
  if n =? 0 then Some ∅
  else
    d ← CInt.sub (pos_ rb) n;
    s ← CInt.add d size;
    start ← CInt.rem s size;
    if start <? pos_ rb then
      r ← Vec.range (tokens_ rb) start (pos_ rb);
      Some (list_to_set r)
    else
      r1 ← Vec.range (tokens_ rb) start (Z.of_nat (length (tokens_ rb)));
      r2 ← Vec.range (tokens_ rb) 0 (pos_ rb);
      Some (list_to_set r1 ∪ list_to_set r2).

(** [for (token : tokens) Add(token)]: a sequence of [Add] calls, oldest
    first. *)
Fixpoint AddAll (tokens : list gpt_vocab_id) (rb : t) : option t :=
  match tokens with
  | [] => Some rb
  | token :: rest => rb' ← Add token rb; AddAll rest rb'
  end.

(** The state the class maintains between calls once [Init] has run with a
    positive capacity: the vector is still growing and the cursor is its
    size, or the vector is full and the cursor is inside it. The bound on
    the capacity keeps [pos_ - n + size] inside the range of [int]. *)
Definition wf (rb : t) : Prop :=
  0 < capacity_ rb <= 2 ^ 30
  /\ 0 <= pos_ rb
  /\ ((Z.of_nat (length (tokens_ rb)) < capacity_ rb
       /\ pos_ rb = Z.of_nat (length (tokens_ rb)))
      \/ (Z.of_nat (length (tokens_ rb)) = capacity_ rb
          /\ pos_ rb < capacity_ rb)).

(** The retained tokens in insertion order, oldest first. *)
Definition contents (rb : t) : list gpt_vocab_id :=
  drop (Z.to_nat (pos_ rb)) (tokens_ rb) ++ take (Z.to_nat (pos_ rb)) (tokens_ rb).

End RingBuffer.

(** The last [k] elements of a sequence. *)
Definition last_n {A} (k : nat) (l : list A) : list A := drop (length l - k) l.

(** ** Floats *)

(** A C++ [float]; [1.0f] is [2^23 * 2^-23] in canonical binary32 form, and
    [!=] is the negation of IEEE equality (so a NaN differs from [1.0f]). *)
Abbreviation float := spec_float.

Definition float_one : float := S754_finite false 8388608 (-23).

Definition float_ne (x y : float) : bool := negb (SFeqb x y).

(** ** The per-architecture collaborators *)

(** What [REGISTER_LLM(_name)] takes from an architecture: the model type
    [_name_model] with its hyper-parameter [hparams.n_ctx], the loader
    [_name_model_load(filename, model, vocab)] and the forward pass
    [_name_eval(model, threads, n_past, tokens, logits, mem_per_token)].
    Arguments passed by reference come back in the result. *)
Class Architecture : Type := {
  model_t : Type;
  hparams_n_ctx : model_t -> Z;
  model_load : string -> model_t -> gpt_vocab -> bool * (model_t * gpt_vocab);
  model_eval : model_t -> Z -> Z -> list gpt_vocab_id -> list float -> Z ->
               bool * (model_t * list float * Z)
}.

(** The sampler [gpt_sample_top_k_top_p(vocab, logits, top_k, top_p,
    temperature, repetition_penalty, recent_tokens, rng)] of common.h; the
    generator it receives is freshly seeded, hence given by its seed. *)
Class Sampler : Type :=
  gpt_sample_top_k_top_p :
    gpt_vocab -> list float -> Z -> float -> float -> float ->
    gset gpt_vocab_id -> Z -> gpt_vocab_id.

(** ** Outcomes and the execution monad *)

Inductive outcome (A : Type) : Type :=
| Ok (a : A)
| Undefined
| OutOfFuel.
Arguments Ok {A} a.
Arguments Undefined {A}.
Arguments OutOfFuel {A}.

(** A call into an external collaborator, with the arguments it received. *)
Inductive call : Type :=
| CallLoad (filename : string)
| CallEval (tokens : list gpt_vocab_id) (threads n_past : Z)
| CallRng (seed : Z)
| CallSampler (logits : list float) (top_k : Z)
              (top_p temperature repetition_penalty : float)
              (recent_tokens : gset gpt_vocab_id) (seed : Z).

Definition is_eval (c : call) : bool :=
  match c with CallEval _ _ _ => true | _ => false end.

(** The batches handed to the forward pass, in call order. *)
Definition eval_batches (cs : list call) : list (list gpt_vocab_id) :=
  omap (fun c => match c with CallEval tokens _ _ => Some tokens | _ => None end) cs.

Section Session.

Context {arch : Architecture} {sampler : Sampler}.

(** The members of class [LLM] and of the registered subclass. *)
Record LLM : Type := {
  n_ctx_ : Z;
  vocab_ : gpt_vocab;
  mem_per_token_ : Z;
  logits_ : list float;
  previous_tokens_ : RingBuffer.t;
  initialized_ : bool;
  model_ : model_t
}.

(** The object together with what the environment answers
    ([time(nullptr)], [std::thread::hardware_concurrency()]) and the log
    of external calls made so far. *)
Record World : Type := {
  self : LLM;
  clock : Z;
  hardware_concurrency : Z;
  calls : list call
}.

Definition Exec (A : Type) : Type := World -> outcome (A * World).

Definition ret {A} (a : A) : Exec A := fun w => Ok (a, w).

Definition bind {A B} (m : Exec A) (k : A -> Exec B) : Exec B :=
  fun w => match m w with
           | Ok (a, w') => k a w'
           | Undefined => Undefined
           | OutOfFuel => OutOfFuel
           end.

Definition get : Exec LLM := fun w => Ok (self w, w).

Definition put (s : LLM) : Exec unit := fun w =>
  Ok (tt, {| self := s; clock := clock w;
             hardware_concurrency := hardware_concurrency w;
             calls := calls w |}).

Definition env {A} (f : World -> A) : Exec A := fun w => Ok (f w, w).

Definition log (c : call) : Exec unit := fun w =>
  Ok (tt, {| self := self w; clock := clock w;
             hardware_concurrency := hardware_concurrency w;
             calls := calls w ++ [c] |}).

(** A pure step that may be undefined. *)
Definition defined {A} (o : option A) : Exec A := fun w =>
  match o with Some a => Ok (a, w) | None => Undefined end.

Definition out_of_fuel {A} : Exec A := fun _ => OutOfFuel.

End Session.

Declare Scope exec_scope.
Delimit Scope exec_scope with exec.
Notation "'let*' x := m 'in' k" := (bind m (fun x => k))
  (at level 10, x name, m at level 100, k at level 200) : exec_scope.
Notation "m ;; k" := (bind m (fun _ => k))
  (at level 100, k at level 200, right associativity) : exec_scope.

(** ** Class LLM *)

Section Methods.

Context {arch : Architecture} {sampler : Sampler}.

Local Open Scope exec_scope.

Definition set_previous_tokens (rb : RingBuffer.t) (s : LLM) : LLM :=
  {| n_ctx_ := n_ctx_ s; vocab_ := vocab_ s;
     mem_per_token_ := mem_per_token_ s; logits_ := logits_ s;
     previous_tokens_ := rb; initialized_ := initialized_ s;
     model_ := model_ s |}.

Definition set_initialized (b : bool) (s : LLM) : LLM :=
  {| n_ctx_ := n_ctx_ s; vocab_ := vocab_ s;
     mem_per_token_ := mem_per_token_ s; logits_ := logits_ s;
     previous_tokens_ := previous_tokens_ s; initialized_ := b;
     model_ := model_ s |}.

Definition ContextLength (s : LLM) : Z := n_ctx_ s.

Definition VocabSize (s : LLM) : Z :=
  CInt.to_int (Z.of_nat (size (id_to_token (vocab_ s)))).

(** [Load] as [REGISTER_LLM] overrides it: the loader works on [model_]
    and [vocab_]; [n_ctx_] is set only when it succeeds. *)
Definition Load (filename : string) : Exec bool :=
  log (CallLoad filename);;
  let* s := get in
  let '(ok, (m, v)) := model_load filename (model_ s) (vocab_ s) in
  if negb ok then
    put {| n_ctx_ := n_ctx_ s; vocab_ := v;
           mem_per_token_ := mem_per_token_ s; logits_ := logits_ s;
           previous_tokens_ := previous_tokens_ s;
           initialized_ := initialized_ s; model_ := m |};;
    ret false
  else
    put {| n_ctx_ := hparams_n_ctx m; vocab_ := v;
           mem_per_token_ := mem_per_token_ s; logits_ := logits_ s;
           previous_tokens_ := previous_tokens_ s;
           initialized_ := initialized_ s; model_ := m |};;
    ret true.

(** [Eval] as [REGISTER_LLM] overrides it: the forward pass works on
    [model_], [logits_] and [mem_per_token_]. *)
Definition Eval (tokens : list gpt_vocab_id) (threads n_past : Z) : Exec bool :=
  log (CallEval tokens threads n_past);;
  let* s := get in
  let '(ok, (m, l, mpt)) :=
    model_eval (model_ s) threads n_past tokens (logits_ s) (mem_per_token_ s) in
  put {| n_ctx_ := n_ctx_ s; vocab_ := vocab_ s;
         mem_per_token_ := mpt; logits_ := l;
         previous_tokens_ := previous_tokens_ s;
         initialized_ := initialized_ s; model_ := m |};;
  ret ok.

Definition Init (filename : string) : Exec bool :=
  let* s := get in
  if initialized_ s then ret false
  else
    let* loaded := Load filename in
    if negb loaded then ret false
    else
      let* s := get in
      put (set_previous_tokens
             (RingBuffer.Init (ContextLength s) (previous_tokens_ s)) s);;
      let* s := get in
      put (set_initialized true s);;
      ret true.

Definition Detokenize (s : LLM) (token : gpt_vocab_id) : string :=
  match id_to_token (vocab_ s) !! token with
  | None => ""%string
  | Some text => text
  end.

Definition EosToken (s : LLM) : gpt_vocab_id :=
  match token_to_id (vocab_ s) !! "<|endoftext|>"%string with
  | Some i => i
  | None => 0
  end.

Definition EvalInternal (tokens : list gpt_vocab_id) (threads : Z) : Exec bool :=
  let* hw := env hardware_concurrency in
  let threads := if threads <? 0 then Z.min (CInt.to_int hw) 4 else threads in
  let* s := get in
  let* room := defined (CInt.sub (ContextLength s)
                          (CInt.to_int (Z.of_nat (length tokens)))) in
  let n_past := Z.min room (RingBuffer.Size (previous_tokens_ s)) in
  let* ok := Eval tokens threads n_past in
  if negb ok then ret false
  else
    let* s := get in
    let* rb := defined (RingBuffer.AddAll tokens (previous_tokens_ s)) in
    put (set_previous_tokens rb s);;
    ret true.

(** The loop of [BatchEval], from cursor [start]; one unit of fuel per
    iteration. *)
Fixpoint BatchEval_loop (fuel : nat) (tokens : list gpt_vocab_id)
    (batch_size threads size start : Z) : Exec bool :=
  match fuel with
  | O => out_of_fuel
  | S fuel' =>
      if start <? size then
        let* stop := defined (CInt.add start batch_size) in
        let end_ := Z.min stop (CInt.to_int (Z.of_nat (length tokens))) in
        let* batch := defined (Vec.range tokens start end_) in
        let* ok := EvalInternal batch threads in
        if negb ok then ret false
        else
          let* start' := defined (CInt.add start batch_size) in
          BatchEval_loop fuel' tokens batch_size threads size start'
      else ret true
  end.

Definition BatchEval (fuel : nat) (tokens : list gpt_vocab_id)
    (batch_size threads : Z) : Exec bool :=
  let size := CInt.to_int (Z.of_nat (length tokens)) in
  BatchEval_loop fuel tokens batch_size threads size 0.

(** The tail of [logits_] that [logits_.data() + (logits_.size() -
    VocabSize())] points to; the pointer must stay inside the vector. *)
Definition logits_tail (s : LLM) : option (list float) :=
  let len := Z.of_nat (length (logits_ s)) in
  let n := VocabSize s in
  if (0 <=? n) && (n <=? len)
  then Some (drop (Z.to_nat (len - n)) (logits_ s))
  else None.

Definition Sample (top_k : Z) (top_p temperature repetition_penalty : float)
    (last_n_tokens seed : Z) : Exec gpt_vocab_id :=
  let* s := get in
  match logits_ s with
  | [] => ret (EosToken s)
  | _ :: _ =>
      let last_n_tokens :=
        if last_n_tokens <? 0 then ContextLength s else last_n_tokens in
      let* seed := (if seed <? 0
                    then (let* now := env clock in ret (CInt.to_int now))
                    else ret seed) in
      let rng := CInt.to_uint32 seed in
      log (CallRng rng);;
      let* recent_tokens :=
        (if float_ne repetition_penalty float_one
         then defined (RingBuffer.GetRecent last_n_tokens (previous_tokens_ s))
         else ret ∅) in
      let* tail := defined (logits_tail s) in
      log (CallSampler tail top_k top_p temperature repetition_penalty
             recent_tokens rng);;
      ret (gpt_sample_top_k_top_p (vocab_ s) tail top_k top_p temperature
             repetition_penalty recent_tokens rng)
  end.

Definition IsEosToken (s : LLM) (token : gpt_vocab_id) : bool :=
  if token =? EosToken s then true
  else
    match special_tokens (vocab_ s) with
    | _ :: _ => String.eqb (Detokenize s token) "### End"
    | [] => false
    end.

Definition Reset (s : LLM) : LLM :=
  {| n_ctx_ := n_ctx_ s; vocab_ := vocab_ s;
     mem_per_token_ := mem_per_token_ s; logits_ := [];
     previous_tokens_ := RingBuffer.Clear (previous_tokens_ s);
     initialized_ := initialized_ s; model_ := model_ s |}.

End Methods.

(** ** Vocabulary of the specification *)

(** The partition of a sequence into consecutive chunks of [k] elements, the
    last one possibly shorter; [fuel] bounds the number of chunks. *)
Fixpoint chunks_aux {A} (fuel k : nat) (l : list A) : list (list A) :=
  match fuel with
  | O => []
  | S fuel' =>
      match l with
      | [] => []
      | _ :: _ => take k l :: chunks_aux fuel' k (drop k l)
      end
  end.

Definition chunks {A} (k : nat) (l : list A) : list (list A) :=
  chunks_aux (length l) k l.


(** The sampler was handed an empty set of recent tokens. *)
Definition sampler_got_no_recent (c : call) : Prop :=
  match c with
  | CallSampler _ _ _ _ _ recent_tokens _ => recent_tokens = ∅
  | _ => True
  end.

Section Specification.

Context {arch : Architecture} {sampler : Sampler}.

(** The state of a session between calls once [Init] has succeeded: the
    recency buffer is well formed and its capacity is the context length. *)
Definition session_ok (s : LLM) : Prop :=
  RingBuffer.wf (previous_tokens_ s)
  /\ n_ctx_ s = RingBuffer.capacity_ (previous_tokens_ s).

(** The thread count an evaluation step settles on. *)
Definition threads_used (w : World) (threads : Z) : Z :=
  if threads <? 0 then Z.min (CInt.to_int (hardware_concurrency w)) 4 else threads.

(** The sliding-window rule for the number of cached tokens. *)
Definition n_past_of (s : LLM) (tokens : list gpt_vocab_id) : Z :=
  Z.min (n_ctx_ s - Z.of_nat (length tokens)) (RingBuffer.Size (previous_tokens_ s)).

(** The object after the forward pass returned [r]. *)
Definition after_eval (s : LLM) (r : bool * (model_t * list float * Z)) : LLM :=
  {| n_ctx_ := n_ctx_ s; vocab_ := vocab_ s;
     mem_per_token_ := snd (snd r); logits_ := snd (fst (snd r));
     previous_tokens_ := previous_tokens_ s;
     initialized_ := initialized_ s; model_ := fst (fst (snd r)) |}.

(** The world with a new object state and further logged calls. *)
Definition with_self (s : LLM) (cs : list call) (w : World) : World :=
  {| self := s; clock := clock w;
     hardware_concurrency := hardware_concurrency w;
     calls := calls w ++ cs |}.

(** One internal evaluation step per chunk, in order, until one fails. *)
Fixpoint EvalChunks (cs : list (list gpt_vocab_id)) (threads : Z) : Exec bool :=
  match cs with
  | [] => ret true
  | c :: rest =>
      bind (EvalInternal c threads) (fun ok =>
        if negb ok then ret false else EvalChunks rest threads)
  end.

End Specification.

(** The forward-pass calls of a run over the chunks [cs] in which every
    chunk succeeds, from a recency buffer holding [occ] tokens: each chunk
    is evaluated against the occupancy the chunks before it have left. *)
Fixpoint expected_evals (thr n_ctx : Z) (cs : list (list gpt_vocab_id))
    (occ : Z) : list call :=
  match cs with
  | [] => []
  | c :: rest =>
      CallEval c thr (Z.min (n_ctx - Z.of_nat (length c)) occ)
      :: expected_evals thr n_ctx rest (Z.min (occ + Z.of_nat (length c)) n_ctx)
  end.

(** ** A small architecture for running the model *)

Module Toy.

Definition vocab : gpt_vocab :=
  {| token_to_id := {[ "<|endoftext|>"%string := 2 ]};
     id_to_token := <[ 2 := "<|endoftext|>"%string ]> {[ 3 := "### End"%string ]};
     special_tokens := ["### End"%string] |}.

(** The model holds its context length and counts the tokens it has
    evaluated; loading fails for the empty file name, and the forward pass
    rejects a batch that holds a negative id. *)
Definition arch : Architecture :=
  {| model_t := Z * Z;
     hparams_n_ctx := fst;
     model_load := fun filename m v =>
       if String.eqb filename "" then (false, (m, v))
       else (true, ((8, 0), vocab));
     model_eval := fun m threads n_past tokens logits mpt =>
       (forallb (Z.leb 0) tokens,
        ((fst m, snd m + Z.of_nat (length tokens)),
         [S754_zero false; float_one], mpt)) |}.

Definition sampler : Sampler :=
  fun _ logits _ _ _ _ recent_tokens seed =>
    Z.of_nat (length logits) + Z.of_nat (size recent_tokens) + seed.

(** A default-constructed object. *)
Definition fresh : @LLM arch :=
  {| n_ctx_ := -1;
     vocab_ := {| token_to_id := ∅; id_to_token := ∅; special_tokens := [] |};
     mem_per_token_ := 0; logits_ := [];
     previous_tokens_ := RingBuffer.Make 0 [] 0;
     initialized_ := false; model_ := ((0, 0) : @model_t arch) |}.

(** An initialized session with context length 8. *)
Definition session (rb : RingBuffer.t) (logits : list float) : @LLM arch :=
  {| n_ctx_ := 8; vocab_ := vocab; mem_per_token_ := 0; logits_ := logits;
     previous_tokens_ := rb; initialized_ := true;
     model_ := ((8, 0) : @model_t arch) |}.

Definition world (s : @LLM arch) : @World arch :=
  {| self := s; clock := 1700000000; hardware_concurrency := 8; calls := [] |}.

End Toy.

(** * Facts *)

(** ** Machine integers *)

Module CIntFacts.
Import CInt.

Lemma fits_spec z : fits z = true <-> INT_MIN <= z <= INT_MAX.
Proof. unfold fits. rewrite andb_true_iff, !Z.leb_le. tauto. Qed.

Lemma checked_fits z : INT_MIN <= z <= INT_MAX -> checked z = Some z.
Proof.
  intros H. unfold checked.
  destruct (fits z) eqn:E; [reflexivity|].
  apply fits_spec in H. congruence.
Qed.

Lemma add_fits a b : INT_MIN <= a + b <= INT_MAX -> add a b = Some (a + b).
Proof. apply checked_fits. Qed.

Lemma sub_fits a b : INT_MIN <= a - b <= INT_MAX -> sub a b = Some (a - b).
Proof. apply checked_fits. Qed.

Lemma to_int_small z : INT_MIN <= z <= INT_MAX -> to_int z = z.
Proof.
  unfold to_int, INT_MIN, INT_MAX. intros H.
  rewrite Z.mod_small; lia.
Qed.

Lemma rem_nonneg a b :
  0 <= a <= INT_MAX -> 0 < b -> rem a b = Some (a mod b).
Proof.
  intros Ha Hb. unfold rem.
  destruct (Z.eqb_spec b 0) as [->|_]; [lia|].
  assert (Hq : 0 <= Z.quot a b <= a).
  { split; [apply Z.quot_pos; lia|].
    rewrite Z.quot_div_nonneg by lia.
    apply Z.div_le_upper_bound; nia. }
  assert (Hf : fits (Z.quot a b) = true).
  { apply fits_spec. unfold INT_MIN, INT_MAX in *. lia. }
  rewrite Hf, Z.rem_mod_nonneg by lia. reflexivity.
Qed.

Lemma rem_zero a : rem a 0 = None.
Proof. reflexivity. Qed.

End CIntFacts.

(** ** Vectors and suffixes *)

Module VecFacts.
Import Vec.

Lemma store_in {A} (v : list A) i x :
  0 <= i < Z.of_nat (length v) -> store v i x = Some (<[Z.to_nat i := x]> v).
Proof.
  intros H. unfold store.
  destruct (Z.leb_spec 0 i); [|lia].
  destruct (Z.ltb_spec i (Z.of_nat (length v))); [reflexivity|lia].
Qed.

Lemma range_in {A} (v : list A) first last :
  0 <= first <= last -> last <= Z.of_nat (length v) ->
  range v first last
  = Some (take (Z.to_nat (last - first)) (drop (Z.to_nat first) v)).
Proof.
  intros H1 H2. unfold range.
  destruct (Z.leb_spec 0 first); [|lia].
  destruct (Z.leb_spec first last); [|lia].
  destruct (Z.leb_spec last (Z.of_nat (length v))); [reflexivity|lia].
Qed.

Lemma range_prefix {A} (v : list A) last :
  0 <= last <= Z.of_nat (length v) ->
  range v 0 last = Some (take (Z.to_nat last) v).
Proof.
  intros H. rewrite range_in by lia.
  rewrite Z.sub_0_r. reflexivity.
Qed.

Lemma range_suffix {A} (v : list A) first :
  0 <= first <= Z.of_nat (length v) ->
  range v first (Z.of_nat (length v)) = Some (drop (Z.to_nat first) v).
Proof.
  intros H. rewrite range_in by lia.
  rewrite take_ge; [reflexivity|].
  rewrite length_drop. lia.
Qed.

Lemma last_n_all {A} k (l : list A) : (length l <= k)%nat -> last_n k l = l.
Proof.
  intros H. unfold last_n.
  replace (length l - k)%nat with 0%nat by lia. reflexivity.
Qed.

Lemma last_n_length {A} k (l : list A) :
  length (last_n k l) = Nat.min k (length l).
Proof. unfold last_n. rewrite length_drop. lia. Qed.

Lemma last_n_app {A} k (l1 l2 : list A) :
  (k <= length l2)%nat -> last_n k (l1 ++ l2) = last_n k l2.
Proof.
  intros H. unfold last_n. rewrite length_app.
  replace (length l1 + length l2 - k)%nat
    with (length l1 + (length l2 - k))%nat by lia.
  apply drop_app_add.
Qed.

Lemma last_n_snoc {A} k (l : list A) x :
  last_n (S k) (l ++ [x]) = last_n k l ++ [x].
Proof.
  unfold last_n. rewrite length_app. simpl.
  replace (length l + 1 - S k)%nat with (length l - k)%nat by lia.
  rewrite drop_app_le by lia. reflexivity.
Qed.

(** Keeping the last [k] after every insertion keeps the last [k] overall. *)
Lemma last_n_last_n_app {A} k (l1 l2 : list A) :
  last_n k (last_n k l1 ++ l2) = last_n k (l1 ++ l2).
Proof.
  unfold last_n.
  rewrite !drop_app, drop_drop, !length_app, !length_drop.
  f_equal; f_equal; lia.
Qed.

Lemma last_n_last_n {A} m k (l : list A) :
  (m <= k)%nat -> last_n m (last_n k l) = last_n m l.
Proof.
  intros H. unfold last_n. rewrite drop_drop, length_drop.
  f_equal. lia.
Qed.

End VecFacts.

(** ** RingBuffer *)

Module RingBufferFacts.
Import RingBuffer CIntFacts VecFacts.

Lemma Size_wf rb : wf rb -> Size rb = Z.of_nat (length (tokens_ rb)).
Proof.
  intros (Hc & Hp & Hs). unfold Size.
  apply to_int_small. unfold CInt.INT_MIN, CInt.INT_MAX. lia.
Qed.

Lemma wf_Init capacity rb :
  0 < capacity <= 2 ^ 30 -> wf (Init capacity rb).
Proof. intros H. unfold wf, Init, Clear. simpl. lia. Qed.

Lemma contents_Init capacity rb : contents (Init capacity rb) = [].
Proof. reflexivity. Qed.

Lemma contents_length rb :
  wf rb -> length (contents rb) = length (tokens_ rb).
Proof.
  intros (Hc & Hp & Hs). unfold contents.
  rewrite length_app, length_drop, length_take. lia.
Qed.

(** One insertion keeps the invariant and slides the retained window. *)
Lemma Add_wf token rb :
  wf rb ->
  exists rb', Add token rb = Some rb'
    /\ wf rb'
    /\ capacity_ rb' = capacity_ rb
    /\ contents rb'
       = last_n (Z.to_nat (capacity_ rb)) (contents rb ++ [token]).
Proof.
  intros Hwf. pose proof (Size_wf rb Hwf) as HS.
  destruct Hwf as (Hc & Hp & Hs).
  unfold Add. rewrite HS.
  destruct Hs as [[Hlt Hpos]|[Hfull Hpos]].
  - (* still growing *)
    destruct (Z.ltb_spec (Z.of_nat (length (tokens_ rb))) (capacity_ rb)); [|lia].
    simpl. rewrite add_fits by (unfold CInt.INT_MIN, CInt.INT_MAX; lia). simpl.
    rewrite rem_nonneg by (unfold CInt.INT_MAX; lia). simpl. eexists. split; [reflexivity|].
    assert (Hcont : contents rb = tokens_ rb).
    { unfold contents. rewrite Hpos, Nat2Z.id, drop_all, firstn_all. reflexivity. }
    split; [|split; [reflexivity|]].
    + unfold wf. simpl. rewrite length_app. simpl.
      pose proof (Z.mod_pos_bound (pos_ rb + 1) (capacity_ rb) ltac:(lia)).
      split; [lia|]. split; [lia|].
      destruct (Z.eq_dec (pos_ rb + 1) (capacity_ rb)) as [E|E].
      * right. lia.
      * left. rewrite Z.mod_small by lia. lia.
    + rewrite Hcont. rewrite last_n_all by (rewrite length_app; simpl; lia).
      unfold contents. simpl.
      destruct (Z.eq_dec (pos_ rb + 1) (capacity_ rb)) as [E|E].
      * rewrite E, Z.mod_same by lia. simpl. rewrite app_nil_r. reflexivity.
      * rewrite Z.mod_small by lia.
        replace (Z.to_nat (pos_ rb + 1)) with (length (tokens_ rb ++ [token]))
          by (rewrite length_app; simpl; lia).
        rewrite drop_all, firstn_all. reflexivity.
  - (* full: overwrite the oldest slot *)
    destruct (Z.ltb_spec (Z.of_nat (length (tokens_ rb))) (capacity_ rb)); [lia|].
    rewrite store_in by lia. simpl.
    rewrite add_fits by (unfold CInt.INT_MIN, CInt.INT_MAX; lia). simpl.
    rewrite rem_nonneg by (unfold CInt.INT_MAX; lia). simpl.
    eexists. split; [reflexivity|].
    pose proof (Z.mod_pos_bound (pos_ rb + 1) (capacity_ rb) ltac:(lia)).
    split; [|split; [reflexivity|]].
    + unfold wf. simpl. rewrite length_insert. split; [lia|]. split; [lia|].
      right. lia.
    + assert (Hi : (Z.to_nat (pos_ rb) < length (tokens_ rb))%nat) by lia.
      destruct (lookup_lt_is_Some_2 _ _ Hi) as [x Hx].
      pose proof (take_drop_middle _ _ _ Hx) as Hsplit.
      set (l1 := take (Z.to_nat (pos_ rb)) (tokens_ rb)) in *.
      set (l2 := drop (S (Z.to_nat (pos_ rb))) (tokens_ rb)) in *.
      assert (Hl1 : length l1 = Z.to_nat (pos_ rb)).
      { unfold l1. rewrite length_take. lia. }
      assert (Hins : <[Z.to_nat (pos_ rb) := token]> (tokens_ rb) = l1 ++ token :: l2).
      { rewrite <- Hsplit at 1. rewrite <- Hl1.
        rewrite insert_app_r_alt by lia. rewrite Nat.sub_diag. reflexivity. }
      assert (Hold : contents rb = x :: l2 ++ l1).
      { unfold contents. fold l1. rewrite <- Hsplit at 1.
        rewrite <- Hl1, drop_app_length. reflexivity. }
      assert (Hlen : (length l1 + S (length l2) = Z.to_nat (capacity_ rb))%nat).
      { rewrite <- Hfull, Nat2Z.id, <- Hsplit, length_app. simpl. lia. }
      rewrite Hold. unfold contents. simpl. rewrite Hins.
      unfold last_n. simpl. rewrite !length_app. simpl.
      replace (S (length l2 + length l1 + 1) - Z.to_nat (capacity_ rb))%nat
        with 1%nat by lia.
      simpl. rewrite drop_0.
      destruct (Z.eq_dec (pos_ rb + 1) (capacity_ rb)) as [E|E].
      * rewrite E, Z.mod_same by lia. simpl.
        assert (length l2 = 0%nat) by lia.
        destruct l2; [|discriminate]. simpl. rewrite app_nil_r. reflexivity.
      * rewrite Z.mod_small by lia.
        replace (Z.to_nat (pos_ rb + 1)) with (length (l1 ++ [token]))
          by (rewrite length_app; simpl; lia).
        replace (l1 ++ token :: l2) with ((l1 ++ [token]) ++ l2)
          by (rewrite <- app_assoc; reflexivity).
        rewrite drop_app_length, take_app_length.
        rewrite app_assoc. reflexivity.
Qed.

Lemma AddAll_wf tokens : forall rb,
  wf rb ->
  exists rb', AddAll tokens rb = Some rb'
    /\ wf rb'
    /\ capacity_ rb' = capacity_ rb
    /\ contents rb'
       = last_n (Z.to_nat (capacity_ rb)) (contents rb ++ tokens).
Proof.
  induction tokens as [|token rest IH]; intros rb Hwf.
  - exists rb. split; [reflexivity|]. split; [assumption|].
    split; [reflexivity|].
    rewrite app_nil_r, last_n_all; [reflexivity|].
    rewrite contents_length by assumption.
    destruct Hwf as (Hc & Hp & Hs). lia.
  - destruct (Add_wf token rb Hwf) as (rb1 & HA & Hwf1 & Hc1 & Hk1).
    destruct (IH rb1 Hwf1) as (rb2 & HB & Hwf2 & Hc2 & Hk2).
    exists rb2. simpl. rewrite HA. simpl.
    split; [assumption|]. split; [assumption|].
    split; [congruence|].
    rewrite Hk2, Hk1, Hc1, last_n_last_n_app, <- app_assoc. reflexivity.
Qed.

(** The query returns the distinct ids of the newest
    [min (Size, n)] retained tokens. *)
Lemma GetRecent_wf n rb :
  wf rb -> 0 < n ->
  GetRecent n rb
  = Some (list_to_set (last_n (Z.to_nat (Z.min (Size rb) n)) (contents rb))).
Proof.
  intros Hwf Hn. pose proof (Size_wf rb Hwf) as HS.
  pose proof (contents_length rb Hwf) as HL.
  destruct Hwf as (Hc & Hp & Hs).
  unfold GetRecent. rewrite HS.
  set (len := Z.of_nat (length (tokens_ rb))) in *.
  set (m := Z.min len n).
  destruct (Z.eqb_spec m 0) as [E|E].
  - assert (Hnil : tokens_ rb = []).
    { destruct (tokens_ rb); [reflexivity|simpl in *; lia]. }
    unfold contents. rewrite Hnil. rewrite take_nil, drop_nil. reflexivity.
  - assert (Hm : 1 <= m <= len) by lia.
    rewrite sub_fits by (unfold CInt.INT_MIN, CInt.INT_MAX; lia). simpl.
    rewrite add_fits by (unfold CInt.INT_MIN, CInt.INT_MAX; lia). simpl.
    rewrite rem_nonneg by (unfold CInt.INT_MAX; lia). simpl.
    destruct (Z_le_gt_dec m (pos_ rb)) as [Hge|Hlt].
    + (* one contiguous run *)
      assert (Hstart : (pos_ rb - m + len) mod len = pos_ rb - m).
      { replace (pos_ rb - m + len) with (pos_ rb - m + 1 * len) by lia.
        rewrite Z_mod_plus_full. apply Z.mod_small. lia. }
      rewrite Hstart.
      destruct (Z.ltb_spec (pos_ rb - m) (pos_ rb)); [|lia].
      rewrite range_in by lia. simpl. f_equal. f_equal.
      replace (pos_ rb - (pos_ rb - m)) with m by lia.
      unfold last_n. rewrite HL. unfold contents.
      rewrite drop_app_ge by (rewrite length_drop; lia).
      rewrite length_drop, take_drop_commute.
      f_equal; [lia|]. f_equal. lia.
    + (* the tail run and the head run *)
      assert (Hstart : (pos_ rb - m + len) mod len = pos_ rb - m + len).
      { apply Z.mod_small. lia. }
      rewrite Hstart.
      destruct (Z.ltb_spec (pos_ rb - m + len) (pos_ rb)); [lia|].
      change (Vec.range (tokens_ rb) (pos_ rb - m + len) len)
        with (Vec.range (tokens_ rb) (pos_ rb - m + len)
                (Z.of_nat (length (tokens_ rb)))).
      rewrite range_suffix by (fold len; lia). simpl.
      rewrite range_prefix by (fold len; lia). simpl.
      f_equal. rewrite <- list_to_set_app_L. f_equal.
      unfold last_n. rewrite HL. unfold contents.
      rewrite drop_app_le by (rewrite length_drop; lia).
      rewrite drop_drop. f_equal. f_equal. lia.
Qed.

End RingBufferFacts.

(** ** The session *)

Section SessionFacts.

Context {arch : Architecture} {sampler : Sampler}.
Import CIntFacts VecFacts RingBufferFacts.

Lemma EvalInternal_eq tokens threads w :
  session_ok (self w) ->
  Z.of_nat (length tokens) <= CInt.INT_MAX ->
  let s := self w in
  let thr := threads_used w threads in
  let n_past := n_past_of s tokens in
  let r := model_eval (model_ s) thr n_past tokens (logits_ s) (mem_per_token_ s) in
  EvalInternal tokens threads w =
    if fst r then
      match RingBuffer.AddAll tokens (previous_tokens_ s) with
      | Some rb => Ok (true, with_self (set_previous_tokens rb (after_eval s r))
                               [CallEval tokens thr n_past] w)
      | None => Undefined
      end
    else Ok (false, with_self (after_eval s r) [CallEval tokens thr n_past] w).
Proof.
  intros [Hwf Hctx] Hlen s thr n_past r.
  destruct Hwf as (Hc & Hp & Hs).
  subst r n_past thr s. unfold threads_used, n_past_of.
  unfold EvalInternal, bind, env, get, defined, ret. simpl.
  unfold ContextLength.
  rewrite to_int_small by (unfold CInt.INT_MIN, CInt.INT_MAX in *; lia).
  rewrite sub_fits by (unfold CInt.INT_MIN, CInt.INT_MAX in *; lia).
  unfold Eval, bind, log, get, put, ret. simpl.
  destruct (model_eval _ _ _ _ _ _) as [ok [[m l] mpt]]. simpl.
  destruct ok; simpl.
  - destruct (RingBuffer.AddAll tokens (previous_tokens_ (self w))); reflexivity.
  - reflexivity.
Qed.

Lemma chunks_aux_fuel {A} k : (1 <= k)%nat ->
  forall fuel1 fuel2 (l : list A),
    (length l <= fuel1)%nat -> (length l <= fuel2)%nat ->
    chunks_aux fuel1 k l = chunks_aux fuel2 k l.
Proof.
  intros Hk fuel1. induction fuel1 as [|fuel1 IH]; intros fuel2 l H1 H2.
  - destruct l; [|simpl in H1; lia]. destruct fuel2; reflexivity.
  - destruct l as [|x l]; [destruct fuel2; reflexivity|].
    destruct fuel2 as [|fuel2]; [simpl in H2; lia|].
    cbn [chunks_aux]. f_equal.
    apply IH; rewrite length_drop; simpl in *; lia.
Qed.

Lemma chunks_aux_enough {A} k : (1 <= k)%nat ->
  forall fuel (l : list A), (length l <= fuel)%nat ->
  chunks_aux fuel k l = chunks k l.
Proof.
  intros Hk fuel l Hl. unfold chunks.
  apply chunks_aux_fuel; [assumption|assumption|lia].
Qed.

Lemma chunks_nil {A} k : chunks k (@nil A) = [].
Proof. reflexivity. Qed.

Lemma chunks_cons {A} k (l : list A) :
  (1 <= k)%nat -> l <> [] ->
  chunks k l = take k l :: chunks k (drop k l).
Proof.
  intros Hk Hl. unfold chunks.
  destruct l as [|x l]; [congruence|].
  cbn [length chunks_aux]. f_equal.
  apply chunks_aux_enough; [assumption|].
  rewrite length_drop. simpl. lia.
Qed.

Lemma chunks_concat {A} k (l : list A) :
  (1 <= k)%nat -> concat (chunks k l) = l.
Proof.
  intros Hk. remember (length l) as n eqn:Hn.
  revert l Hn. induction n as [n IH] using lt_wf_ind. intros l Hn.
  destruct l as [|x l]; [reflexivity|].
  rewrite chunks_cons by (assumption || discriminate).
  cbn [concat]. rewrite (IH (length (drop k (x :: l)))); [apply take_drop| |reflexivity].
  rewrite length_drop. subst n. simpl. lia.
Qed.

(** Every chunk is non-empty and at most [k] long, and only the last one
    may be shorter than [k]. *)
Lemma chunks_shape {A} k (l : list A) :
  (1 <= k)%nat ->
  Forall (fun c => (1 <= length c <= k)%nat) (chunks k l)
  /\ forall front c, chunks k l = front ++ [c] ->
       Forall (fun c' => length c' = k) front.
Proof.
  intros Hk. remember (length l) as n eqn:Hn.
  revert l Hn. induction n as [n IH] using lt_wf_ind. intros l Hn.
  destruct l as [|x l].
  - split; [constructor|]. intros front c H.
    rewrite chunks_nil in H. destruct front; discriminate.
  - rewrite chunks_cons by (assumption || discriminate).
    assert (Hd : (length (drop k (x :: l)) < n)%nat).
    { rewrite length_drop. subst n. simpl. lia. }
    destruct (IH _ Hd (drop k (x :: l)) eq_refl) as [IH1 IH2].
    split.
    + constructor; [|assumption].
      rewrite length_take. simpl. lia.
    + intros front c H. destruct front as [|f front].
      * constructor.
      * simpl in H. injection H as Hf Hrest.
        constructor; [|eapply IH2; eassumption].
        subst f. rewrite length_take.
        destruct (drop k (x :: l)) eqn:Ed.
        { rewrite chunks_nil in Hrest. destruct front; discriminate. }
        assert (length (drop k (x :: l)) <> 0)%nat by (rewrite Ed; simpl; lia).
        rewrite length_drop in H. lia.
Qed.


Lemma bind_defined {A B} (o : option A) (k : A -> Exec B) w a :
  o = Some a -> bind (defined o) k w = k a w.
Proof. intros ->. reflexivity. Qed.

Lemma bind_run {A B} (m : Exec A) (k : A -> Exec B) w a w' :
  m w = Ok (a, w') -> bind m k w = k a w'.
Proof. unfold bind. intros ->. reflexivity. Qed.

Lemma chunks_length_le {A} k (l : list A) :
  (1 <= k)%nat -> (length (chunks k l) <= length l)%nat.
Proof.
  intros Hk. remember (length l) as n eqn:Hn.
  revert l Hn. induction n as [n IH] using lt_wf_ind. intros l Hn.
  destruct l as [|x l]; [rewrite chunks_nil; simpl; lia|].
  rewrite chunks_cons by (assumption || discriminate).
  assert (Hd : (length (drop k (x :: l)) < n)%nat).
  { rewrite length_drop. subst n. simpl. lia. }
  pose proof (IH _ Hd (drop k (x :: l)) eq_refl) as H.
  cbn [length]. lia.
Qed.

(** The loop of [BatchEval] at cursor [start] evaluates the chunks of the
    tokens that remain from [start] on. *)
Lemma BatchEval_loop_chunks tokens batch_size threads :
  1 <= batch_size <= CInt.INT_MAX ->
  Z.of_nat (length tokens) <= 2 ^ 30 ->
  forall fuel start w,
    0 <= start -> start = 0 \/ batch_size <= start ->
    (length (chunks (Z.to_nat batch_size) (drop (Z.to_nat start) tokens)) < fuel)%nat ->
    BatchEval_loop fuel tokens batch_size threads
      (Z.of_nat (length tokens)) start w
    = EvalChunks (chunks (Z.to_nat batch_size) (drop (Z.to_nat start) tokens))
        threads w.
Proof.
  intros Hbs Hlen fuel. induction fuel as [|fuel IH]; intros start w H0 Hinv Hfuel.
  - lia.
  - cbn [BatchEval_loop].
    destruct (Z.ltb_spec start (Z.of_nat (length tokens))) as [Hlt|Hge].
    + assert (Hne : drop (Z.to_nat start) tokens <> []).
      { intros E. apply (f_equal length) in E.
        rewrite length_drop in E. simpl in E. lia. }
      rewrite chunks_cons in Hfuel |- * by (assumption || lia).
      cbn [length] in Hfuel. cbn [EvalChunks].
      erewrite bind_defined
        by (apply add_fits; unfold CInt.INT_MIN, CInt.INT_MAX in *; lia).
      rewrite to_int_small by (unfold CInt.INT_MIN, CInt.INT_MAX in *; lia).
      assert (Hbatch :
        Vec.range tokens start
          (Z.min (start + batch_size) (Z.of_nat (length tokens)))
        = Some (take (Z.to_nat batch_size) (drop (Z.to_nat start) tokens))).
      { rewrite range_in by lia. f_equal.
        destruct (Z.le_gt_cases (start + batch_size) (Z.of_nat (length tokens))).
        - rewrite Z.min_l by lia. f_equal. lia.
        - rewrite Z.min_r by lia.
          rewrite !take_ge; [reflexivity| |]; rewrite length_drop; lia. }
      erewrite bind_defined by exact Hbatch.
      unfold bind at 1. unfold bind at 2.
      destruct (EvalInternal _ threads w) as [[ok w']| |]; [|reflexivity|reflexivity].
      destruct ok; cbn [negb]; [|reflexivity].
      erewrite bind_defined
        by (apply add_fits; unfold CInt.INT_MIN, CInt.INT_MAX in *; lia).
      assert (Hdrop : drop (Z.to_nat (start + batch_size)) tokens
                      = drop (Z.to_nat batch_size) (drop (Z.to_nat start) tokens)).
      { rewrite drop_drop. f_equal. lia. }
      rewrite IH; [rewrite Hdrop; reflexivity|lia|lia|].
      rewrite Hdrop. lia.
    + rewrite drop_ge by lia. reflexivity.
Qed.


Lemma AddAll_app l1 l2 rb :
  RingBuffer.AddAll (l1 ++ l2) rb
  = RingBuffer.AddAll l1 rb ≫= RingBuffer.AddAll l2.
Proof.
  revert rb. induction l1 as [|x l1 IH]; intros rb; [reflexivity|].
  simpl. destruct (RingBuffer.Add x rb) as [rb1|]; [|reflexivity].
  simpl. apply IH.
Qed.

Lemma eval_batches_app cs1 cs2 :
  eval_batches (cs1 ++ cs2) = eval_batches cs1 ++ eval_batches cs2.
Proof. apply omap_app. Qed.

(** One internal evaluation step on a well-formed session. *)
Lemma EvalInternal_run tokens threads w :
  session_ok (self w) ->
  Z.of_nat (length tokens) <= CInt.INT_MAX ->
  exists ok w',
    EvalInternal tokens threads w = Ok (ok, w')
    /\ calls w' = calls w ++ [CallEval tokens (threads_used w threads)
                                (n_past_of (self w) tokens)]
    /\ session_ok (self w')
    /\ ok = fst (model_eval (model_ (self w)) (threads_used w threads)
                   (n_past_of (self w) tokens) tokens
                   (logits_ (self w)) (mem_per_token_ (self w)))
    /\ (if ok
        then RingBuffer.AddAll tokens (previous_tokens_ (self w))
             = Some (previous_tokens_ (self w'))
        else previous_tokens_ (self w') = previous_tokens_ (self w)).
Proof.
  intros Hok Hlen. rewrite EvalInternal_eq by assumption. cbv zeta.
  destruct Hok as [Hwf Hctx].
  destruct (fst (model_eval _ _ _ _ _ _)) eqn:Er.
  - destruct (AddAll_wf tokens _ Hwf) as (rb & HA & Hwf' & Hcap & _).
    rewrite HA. eexists true, _. split; [reflexivity|].
    split; [reflexivity|]. split; [|split; [reflexivity|simpl; reflexivity]].
    split; simpl; [assumption|congruence].
  - eexists false, _. split; [reflexivity|].
    split; [reflexivity|]. split; [|split; reflexivity].
    split; simpl; assumption.
Qed.

Lemma EvalChunks_run threads cs : forall w,
  session_ok (self w) ->
  Forall (fun c => Z.of_nat (length c) <= CInt.INT_MAX) cs ->
  exists ok w' new,
    EvalChunks cs threads w = Ok (ok, w')
    /\ calls w' = calls w ++ new
    /\ session_ok (self w')
    /\ Forall (fun c => is_eval c = true) new
    /\ (if ok
        then eval_batches new = cs
             /\ RingBuffer.AddAll (concat cs) (previous_tokens_ (self w))
                = Some (previous_tokens_ (self w'))
        else exists done failing rest w_mid,
             cs = done ++ failing :: rest
             /\ eval_batches new = done ++ [failing]
             /\ EvalChunks done threads w = Ok (true, w_mid)
             /\ session_ok (self w_mid)
             /\ EvalInternal failing threads w_mid = Ok (false, w')
             /\ RingBuffer.AddAll (concat done) (previous_tokens_ (self w))
                = Some (previous_tokens_ (self w'))).
Proof.
  induction cs as [|c cs IH]; intros w Hok Hlen.
  - exists true, w, []. split; [reflexivity|].
    split; [rewrite app_nil_r; reflexivity|]. split; [assumption|].
    split; [constructor|]. split; reflexivity.
  - inversion Hlen as [|? ? Hc Hcs]; subst.
    destruct (EvalInternal_run c threads w Hok Hc)
      as (ok1 & w1 & Hrun & Hcalls & Hok1 & _ & Hbuf).
    cbn [EvalChunks]. rewrite (bind_run _ _ _ _ _ Hrun).
    destruct ok1; cbn [negb].
    + destruct (IH w1 Hok1 Hcs) as (ok2 & w2 & new2 & Hrun2 & Hcalls2 & Hok2 & Hev2 & Hres).
      exists ok2, w2, (CallEval c (threads_used w threads) (n_past_of (self w) c) :: new2).
      split; [assumption|].
      split; [rewrite Hcalls2, Hcalls, <- app_assoc; reflexivity|].
      split; [assumption|]. split; [constructor; [reflexivity|assumption]|].
      destruct ok2.
      * destruct Hres as [Hb Hadd]. split; [simpl; congruence|].
        cbn [concat]. rewrite AddAll_app, Hbuf. exact Hadd.
      * destruct Hres as (done & failing & rest & w_mid & Hsplit & Hb & Hd & Hm & Hf & Hadd).
        exists (c :: done), failing, rest, w_mid.
        split; [simpl; congruence|]. split; [simpl; congruence|].
        split; [cbn [EvalChunks]; rewrite (bind_run _ _ _ _ _ Hrun); exact Hd|].
        split; [assumption|]. split; [assumption|].
        cbn [concat]. rewrite AddAll_app, Hbuf. exact Hadd.
    + exists false, w1, [CallEval c (threads_used w threads) (n_past_of (self w) c)].
      split; [reflexivity|]. split; [assumption|]. split; [assumption|].
      split; [constructor; [reflexivity|constructor]|].
      exists [], c, cs, w. split; [reflexivity|]. split; [reflexivity|].
      split; [reflexivity|]. split; [assumption|]. split; [assumption|].
      simpl. congruence.
Qed.

Lemma with_self_nil (w : World) : with_self (self w) [] w = w.
Proof. destruct w. unfold with_self. simpl. rewrite app_nil_r. reflexivity. Qed.

(** A successful [Init] with a context length the buffer can hold leaves a
    well-formed session with an empty recency buffer. *)
Lemma Init_session_ok filename w :
  initialized_ (self w) = false ->
  fst (model_load filename (model_ (self w)) (vocab_ (self w))) = true ->
  0 < hparams_n_ctx
        (fst (snd (model_load filename (model_ (self w)) (vocab_ (self w)))))
    <= 2 ^ 30 ->
  exists w',
    Init filename w = Ok (true, w')
    /\ session_ok (self w')
    /\ initialized_ (self w') = true
    /\ RingBuffer.tokens_ (previous_tokens_ (self w')) = [].
Proof.
  intros Hi Hload Hctx.
  unfold Init, bind, get. simpl. rewrite Hi.
  unfold Load, bind, log, get, put, ret. simpl.
  destruct (model_load filename (model_ (self w)) (vocab_ (self w)))
    as [ok [m v]]. simpl in Hload, Hctx. subst ok. simpl.
  eexists. split; [reflexivity|]. simpl.
  split; [|split; reflexivity].
  split; simpl; [|reflexivity].
  apply wf_Init. exact Hctx.
Qed.

Lemma Reset_session_ok s : session_ok s -> session_ok (Reset s).
Proof.
  intros [(Hc & _) Hctx]. split; simpl; [|exact Hctx].
  unfold RingBuffer.wf. simpl. lia.
Qed.

(** Chunks that all succeed are a prefix of the run: the chunks after them
    are evaluated from the state they leave. *)
Lemma EvalChunks_app_true threads done : forall rest w w_mid,
  EvalChunks done threads w = Ok (true, w_mid) ->
  EvalChunks (done ++ rest) threads w = EvalChunks rest threads w_mid.
Proof.
  induction done as [|c done IH]; intros rest w w_mid Hd.
  - simpl in Hd. unfold ret in Hd. injection Hd as <-. reflexivity.
  - cbn [EvalChunks app] in Hd |- *. unfold bind in Hd |- *.
    destruct (EvalInternal c threads w) as [[ok w1]| |]; try discriminate.
    destruct ok; cbn [negb] in Hd |- *; [|discriminate].
    apply IH. exact Hd.
Qed.

End SessionFacts.

(** * The specification, claim by claim *)

Import CIntFacts VecFacts RingBufferFacts.

(** C1: after [Init(capacity)] with a positive capacity and any sequence of
    [Add] calls, [GetRecent(n)] with [n > 0] returns exactly the set of
    distinct ids among the last [min(Size(), n)] tokens inserted, also after
    the cursor has wrapped around; with capacity 3 and [A, B, C, D] added,
    [GetRecent(2) = {C, D}] and [GetRecent(10) = {B, C, D}]. *)
Theorem C1_GetRecent_last_tokens :
  (forall capacity rb0 tokens n,
     0 < capacity <= 2 ^ 30 -> 0 < n ->
     exists rb,
       RingBuffer.AddAll tokens (RingBuffer.Init capacity rb0) = Some rb
       /\ RingBuffer.Size rb = Z.min (Z.of_nat (length tokens)) capacity
       /\ RingBuffer.GetRecent n rb
          = Some (list_to_set
                    (last_n (Z.to_nat (Z.min (RingBuffer.Size rb) n)) tokens)))
  /\ (forall A B C D rb0,
        exists rb,
          RingBuffer.AddAll [A; B; C; D] (RingBuffer.Init 3 rb0) = Some rb
          /\ RingBuffer.GetRecent 2 rb = Some {[C; D]}
          /\ RingBuffer.GetRecent 10 rb = Some {[B; C; D]}).
Proof.
  assert (General : forall capacity rb0 tokens n,
     0 < capacity <= 2 ^ 30 -> 0 < n ->
     exists rb,
       RingBuffer.AddAll tokens (RingBuffer.Init capacity rb0) = Some rb
       /\ RingBuffer.Size rb = Z.min (Z.of_nat (length tokens)) capacity
       /\ RingBuffer.GetRecent n rb
          = Some (list_to_set
                    (last_n (Z.to_nat (Z.min (RingBuffer.Size rb) n)) tokens))).
  { intros capacity rb0 tokens n Hc Hn.
    destruct (AddAll_wf tokens _ (wf_Init capacity rb0 Hc))
      as (rb & HA & Hwf & Hcap & Hcont).
    rewrite contents_Init, app_nil_l in Hcont. simpl in Hcap, Hcont.
    assert (HS : RingBuffer.Size rb = Z.min (Z.of_nat (length tokens)) capacity).
    { rewrite Size_wf by assumption.
      rewrite <- contents_length by assumption.
      rewrite Hcont, last_n_length. lia. }
    exists rb. split; [assumption|]. split; [assumption|].
    rewrite GetRecent_wf by assumption.
    rewrite Hcont, last_n_last_n by lia. reflexivity. }
  split; [exact General|].
  intros A B C D rb0.
  destruct (General 3 rb0 [A; B; C; D] 2 ltac:(lia) ltac:(lia))
    as (rb & HA & HS & H2).
  exists rb. split; [assumption|].
  destruct (General 3 rb0 [A; B; C; D] 10 ltac:(lia) ltac:(lia))
    as (rb' & HA' & _ & H10).
  assert (rb' = rb) by congruence. subst rb'.
  rewrite HS in H2, H10. simpl in H2, H10.
  split.
  - rewrite H2. f_equal. simpl. rewrite (right_id_L ∅ (∪)). reflexivity.
  - rewrite H10. f_equal. simpl. rewrite (right_id_L ∅ (∪)).
    rewrite (assoc_L (∪)). reflexivity.
Qed.

Lemma C1_witness :
  exists rb,
    RingBuffer.AddAll [10; 20; 30; 40; 50]
      (RingBuffer.Init 3 (RingBuffer.Make 0 [] 0)) = Some rb
    /\ RingBuffer.Size rb = Z.min (Z.of_nat (length [10; 20; 30; 40; 50])) 3
    /\ RingBuffer.GetRecent 2 rb
       = Some (list_to_set
                 (last_n (Z.to_nat (Z.min (RingBuffer.Size rb) 2))
                    [10; 20; 30; 40; 50])).
Proof.
  apply (proj1 C1_GetRecent_last_tokens 3 (RingBuffer.Make 0 [] 0)
           [10; 20; 30; 40; 50] 2); lia.
Defined.

(** C2, as the code has it: [GetRecent(n)] returns the empty set for
    [n = 0], and for every [n >= 0] when the buffer is empty. *)
Theorem C2_GetRecent_empty (rb : RingBuffer.t) (n : Z) :
  Z.of_nat (length (RingBuffer.tokens_ rb)) <= CInt.INT_MAX ->
  n = 0 \/ (RingBuffer.Size rb = 0 /\ 0 <= n) ->
  RingBuffer.GetRecent n rb = Some ∅.
Proof.
  intros Hlen Hn. unfold RingBuffer.GetRecent.
  assert (HS : RingBuffer.Size rb = Z.of_nat (length (RingBuffer.tokens_ rb))).
  { unfold RingBuffer.Size. apply to_int_small.
    unfold CInt.INT_MIN, CInt.INT_MAX in *. lia. }
  destruct (Z.eqb_spec (Z.min (RingBuffer.Size rb) n) 0) as [E|E];
    [reflexivity|lia].
Qed.

Lemma C2_witness :
  RingBuffer.GetRecent 0 (RingBuffer.Make 3 [4; 2; 3] 1) = Some ∅
  /\ RingBuffer.GetRecent 5 (RingBuffer.Make 3 [] 0) = Some ∅.
Proof.
  split.
  - apply (C2_GetRecent_empty (RingBuffer.Make 3 [4; 2; 3] 1) 0).
    + vm_compute. discriminate.
    + left. reflexivity.
  - apply (C2_GetRecent_empty (RingBuffer.Make 3 [] 0) 5).
    + vm_compute. discriminate.
    + right. split; [reflexivity|lia].
Defined.

(** C2 as stated fails for a negative argument: after [Init(3)] and
    [Add(7)], [GetRecent(-1)] returns [{7}]; on the empty buffer it takes a
    remainder by zero. *)
Lemma C2_counterexample :
  RingBuffer.AddAll [7] (RingBuffer.Init 3 (RingBuffer.Make 0 [] 0))
  = Some (RingBuffer.Make 3 [7] 1)
  /\ -1 <= 0
  /\ RingBuffer.GetRecent (-1) (RingBuffer.Make 3 [7] 1) = Some {[7]}
  /\ RingBuffer.GetRecent (-1) (RingBuffer.Make 3 [7] 1) <> Some ∅
  /\ RingBuffer.GetRecent (-1) (RingBuffer.Init 3 (RingBuffer.Make 0 [] 0)) = None.
Proof.
  assert (H : RingBuffer.GetRecent (-1) (RingBuffer.Make 3 [7] 1) = Some {[7]}).
  { vm_compute. reflexivity. }
  split; [reflexivity|]. split; [lia|]. split; [exact H|].
  split; [|reflexivity].
  rewrite H. intros E. apply (inj Some) in E.
  exact (non_empty_singleton_L 7 E).
Qed.

Section Claims.

Context {arch : Architecture} {sampler : Sampler}.

(** C3: one internal evaluation step on a batch of length [L] passes
    [n_past = min(n_ctx - L, occ)] to the external forward pass, where [occ]
    is the occupancy of the recency buffer; for [n_ctx = 8], [occ = 5] and
    [L = 3] it passes [n_past = 5]. *)
Theorem C3_EvalInternal_n_past (tokens : list gpt_vocab_id) (threads : Z) (w : World) :
  session_ok (self w) ->
  Z.of_nat (length tokens) <= CInt.INT_MAX ->
  exists ok w',
    EvalInternal tokens threads w = Ok (ok, w')
    /\ calls w'
       = calls w ++ [CallEval tokens (threads_used w threads)
                       (Z.min (n_ctx_ (self w) - Z.of_nat (length tokens))
                              (RingBuffer.Size (previous_tokens_ (self w))))]
    /\ (n_ctx_ (self w) = 8 ->
        RingBuffer.Size (previous_tokens_ (self w)) = 5 ->
        length tokens = 3%nat ->
        calls w' = calls w ++ [CallEval tokens (threads_used w threads) 5]).
Proof.
  intros Hok Hlen.
  destruct (EvalInternal_run tokens threads w Hok Hlen)
    as (ok & w' & Hrun & Hcalls & _).
  exists ok, w'. split; [assumption|]. split; [exact Hcalls|].
  intros Hctx Hocc HL. rewrite Hcalls. unfold n_past_of.
  rewrite Hctx, Hocc, HL. reflexivity.
Qed.

(** C4: for [batch_size >= 1], [BatchEval] evaluates the tokens as
    consecutive chunks of at most [batch_size] tokens, only the last one
    possibly shorter, in sequence order, one internal evaluation step per
    chunk; ten tokens with [batch_size = 4] give exactly three evaluation
    calls, on batches of 4, 4 and 2 tokens, and on success the occupancy of
    the recency buffer is [min(10, capacity)]. *)
Theorem C4_BatchEval_chunks (tokens : list gpt_vocab_id)
    (batch_size threads : Z) (fuel : nat) (w : World) :
  1 <= batch_size <= CInt.INT_MAX ->
  Z.of_nat (length tokens) <= 2 ^ 30 ->
  (length tokens < fuel)%nat ->
  session_ok (self w) ->
  let cs := chunks (Z.to_nat batch_size) tokens in
  concat cs = tokens
  /\ Forall (fun c => 1 <= Z.of_nat (length c) <= batch_size) cs
  /\ (forall front c, cs = front ++ [c] ->
        Forall (fun c' => Z.of_nat (length c') = batch_size) front)
  /\ BatchEval fuel tokens batch_size threads w = EvalChunks cs threads w
  /\ (exists ok w' new,
        BatchEval fuel tokens batch_size threads w = Ok (ok, w')
        /\ calls w' = calls w ++ new
        /\ Forall (fun c => is_eval c = true) new
        /\ (ok = true ->
            eval_batches new = cs
            /\ RingBuffer.Size (previous_tokens_ (self w'))
               = Z.min (RingBuffer.Size (previous_tokens_ (self w))
                        + Z.of_nat (length tokens))
                       (RingBuffer.capacity_ (previous_tokens_ (self w)))
            /\ (length tokens = 10%nat -> batch_size = 4 ->
                map length (eval_batches new) = [4; 4; 2]%nat
                /\ (RingBuffer.Size (previous_tokens_ (self w)) = 0 ->
                    RingBuffer.Size (previous_tokens_ (self w'))
                    = Z.min 10 (RingBuffer.capacity_ (previous_tokens_ (self w)))))))
  /\ (length tokens = 10%nat -> batch_size = 4 ->
      map length cs = [4; 4; 2]%nat).
Proof.
  intros Hbs Hlen Hfuel Hok cs.
  assert (Hk : (1 <= Z.to_nat batch_size)%nat) by lia.
  pose proof (chunks_concat (Z.to_nat batch_size) tokens Hk) as Hcat.
  destruct (chunks_shape (Z.to_nat batch_size) tokens Hk) as [Hsh1 Hsh2].
  fold cs in Hcat, Hsh1, Hsh2.
  assert (Hshape : Forall (fun c => 1 <= Z.of_nat (length c) <= batch_size) cs).
  { eapply Forall_impl; [exact Hsh1|]. simpl. intros c Hc. lia. }
  assert (Hrun : BatchEval fuel tokens batch_size threads w = EvalChunks cs threads w).
  { unfold BatchEval.
    rewrite to_int_small by (unfold CInt.INT_MIN, CInt.INT_MAX; lia).
    rewrite BatchEval_loop_chunks; try assumption; try lia.
    - reflexivity.
    - simpl. rewrite drop_0.
      pose proof (chunks_length_le (Z.to_nat batch_size) tokens Hk). lia. }
  assert (Hten : length tokens = 10%nat -> batch_size = 4 ->
                 map length cs = [4; 4; 2]%nat).
  { intros H10 H4. subst cs. rewrite H4.
    do 11 (destruct tokens as [|? tokens]; try discriminate). reflexivity. }
  split; [assumption|]. split; [assumption|].
  split.
  { intros front c Hfront. eapply Forall_impl; [exact (Hsh2 front c Hfront)|].
    simpl. intros c' Hc'. lia. }
  split; [assumption|]. split; [|assumption].
  destruct (EvalChunks_run threads cs w Hok) as (ok & w' & new & HE & Hcalls & Hok' & Hev & Hres).
  { eapply Forall_impl; [exact Hshape|]. simpl. intros c Hc. lia. }
  exists ok, w', new. rewrite Hrun.
  split; [assumption|]. split; [assumption|]. split; [assumption|].
  intros ->. destruct Hres as [Hb Hadd]. rewrite Hcat in Hadd.
  destruct Hok as [Hwf Hctx].
  destruct (AddAll_wf tokens _ Hwf) as (rb & HA & Hwf' & Hcap & Hcont).
  assert (rb = previous_tokens_ (self w')) by congruence. subst rb.
  assert (Hsize : RingBuffer.Size (previous_tokens_ (self w'))
               = Z.min (RingBuffer.Size (previous_tokens_ (self w))
                        + Z.of_nat (length tokens))
                       (RingBuffer.capacity_ (previous_tokens_ (self w)))).
  { rewrite !Size_wf by assumption.
    rewrite <- (contents_length _ Hwf'), <- (contents_length _ Hwf).
    rewrite Hcont, last_n_length, length_app.
    destruct Hwf as (Hc & _). lia. }
  split; [assumption|]. split; [assumption|].
  intros H10 H4. split; [rewrite Hb; auto|].
  intros H0. rewrite Hsize, H0, H10. reflexivity.
Qed.

(** C5: when the external forward pass fails on a batch, the internal
    evaluation step returns failure and leaves the recency buffer unchanged;
    when it succeeds, every token of the batch is appended to the recency
    buffer in batch order. Hence [BatchEval] stops at the first failing
    chunk, and the tokens of the chunks evaluated before it stay in the
    recency buffer. *)
Theorem C5_failure_keeps_committed_chunks (tokens : list gpt_vocab_id)
    (threads : Z) (w : World) :
  session_ok (self w) ->
  Z.of_nat (length tokens) <= 2 ^ 30 ->
  (exists ok w',
     EvalInternal tokens threads w = Ok (ok, w')
     /\ ok = fst (model_eval (model_ (self w)) (threads_used w threads)
                    (n_past_of (self w) tokens) tokens
                    (logits_ (self w)) (mem_per_token_ (self w)))
     /\ (ok = false ->
         previous_tokens_ (self w') = previous_tokens_ (self w))
     /\ (ok = true ->
         RingBuffer.AddAll tokens (previous_tokens_ (self w))
         = Some (previous_tokens_ (self w'))
         /\ RingBuffer.contents (previous_tokens_ (self w'))
            = last_n (Z.to_nat (RingBuffer.capacity_ (previous_tokens_ (self w))))
                (RingBuffer.contents (previous_tokens_ (self w)) ++ tokens)))
  /\ (forall batch_size fuel,
        1 <= batch_size <= CInt.INT_MAX ->
        (length tokens < fuel)%nat ->
        exists ok w' new,
          BatchEval fuel tokens batch_size threads w = Ok (ok, w')
          /\ calls w' = calls w ++ new
          /\ (ok = false ->
              exists done failing rest w_mid,
                chunks (Z.to_nat batch_size) tokens = done ++ failing :: rest
                /\ eval_batches new = done ++ [failing]
                /\ EvalChunks done threads w = Ok (true, w_mid)
                /\ fst (model_eval (model_ (self w_mid))
                          (threads_used w_mid threads)
                          (n_past_of (self w_mid) failing) failing
                          (logits_ (self w_mid)) (mem_per_token_ (self w_mid)))
                   = false
                /\ previous_tokens_ (self w') = previous_tokens_ (self w_mid)
                /\ RingBuffer.AddAll (concat done) (previous_tokens_ (self w))
                   = Some (previous_tokens_ (self w')))
          /\ BatchEval fuel tokens batch_size threads w
             = EvalChunks (chunks (Z.to_nat batch_size) tokens) threads w
          /\ (ok = true ->
              eval_batches new = chunks (Z.to_nat batch_size) tokens
              /\ RingBuffer.AddAll tokens (previous_tokens_ (self w))
                 = Some (previous_tokens_ (self w')))
          /\ (forall done failing rest w_mid,
                chunks (Z.to_nat batch_size) tokens = done ++ failing :: rest ->
                EvalChunks done threads w = Ok (true, w_mid) ->
                fst (model_eval (model_ (self w_mid))
                       (threads_used w_mid threads)
                       (n_past_of (self w_mid) failing) failing
                       (logits_ (self w_mid)) (mem_per_token_ (self w_mid)))
                = false ->
                ok = false
                /\ EvalInternal failing threads w_mid = Ok (false, w')
                /\ eval_batches new = done ++ [failing]
                /\ previous_tokens_ (self w') = previous_tokens_ (self w_mid)
                /\ RingBuffer.AddAll (concat done) (previous_tokens_ (self w))
                   = Some (previous_tokens_ (self w')))).
Proof.
  intros Hok Hlen. split.
  - destruct (EvalInternal_run tokens threads w Hok)
      as (ok & w' & Hrun & _ & _ & Hfst & Hbuf).
    { unfold CInt.INT_MAX. lia. }
    exists ok, w'. split; [assumption|]. split; [assumption|].
    split; intros ->; [exact Hbuf|].
    split; [exact Hbuf|].
    destruct Hok as [Hwf _].
    destruct (AddAll_wf tokens _ Hwf) as (rb & HA & _ & _ & Hcont).
    assert (rb = previous_tokens_ (self w')) by congruence. subst rb.
    exact Hcont.
  - intros batch_size fuel Hbs Hfuel.
    assert (Hk : (1 <= Z.to_nat batch_size)%nat) by lia.
    assert (Hrun : BatchEval fuel tokens batch_size threads w
                   = EvalChunks (chunks (Z.to_nat batch_size) tokens) threads w).
    { unfold BatchEval.
      rewrite to_int_small by (unfold CInt.INT_MIN, CInt.INT_MAX; lia).
      rewrite BatchEval_loop_chunks; try assumption; try lia.
      - reflexivity.
      - simpl. rewrite drop_0.
        pose proof (chunks_length_le (Z.to_nat batch_size) tokens Hk). lia. }
    destruct (chunks_shape (Z.to_nat batch_size) tokens Hk) as [Hsh _].
    assert (Hfit : Forall (fun c => Z.of_nat (length c) <= CInt.INT_MAX)
                     (chunks (Z.to_nat batch_size) tokens)).
    { eapply Forall_impl; [exact Hsh|]. simpl. intros c Hc. lia. }
    destruct (EvalChunks_run threads (chunks (Z.to_nat batch_size) tokens) w Hok Hfit)
      as (ok & w' & new & HE & Hcalls & _ & _ & Hres).
    exists ok, w', new. rewrite Hrun.
    split; [assumption|]. split; [assumption|].
    split.
    { intros ->.
      destruct Hres as (done & failing & rest & w_mid & Hsplit & Hb & Hd & Hm & Hf & Hadd).
      exists done, failing, rest, w_mid.
      split; [assumption|]. split; [assumption|]. split; [assumption|].
      destruct (EvalInternal_run failing threads w_mid Hm)
        as (ok & w'' & Hrun' & _ & _ & Hfst & Hbuf).
      { rewrite Forall_forall in Hfit. apply Hfit.
        rewrite Hsplit. apply elem_of_app. right. apply elem_of_cons. left.
        reflexivity. }
      rewrite Hf in Hrun'. injection Hrun' as <- <-.
      split; [symmetry; exact Hfst|]. split; [exact Hbuf|exact Hadd]. }
    split; [reflexivity|].
    split.
    { intros ->. destruct Hres as [Hb Hadd].
      split; [exact Hb|].
      rewrite chunks_concat in Hadd by exact Hk. exact Hadd. }
    intros done failing rest w_mid Hsplit Hd Hfail.
    rewrite Hsplit in Hfit. apply Forall_app in Hfit as [Hfit_done Hfit_rest].
    inversion Hfit_rest as [|? ? Hfit_failing _]; subst.
    destruct (EvalChunks_run threads done w Hok Hfit_done)
      as (okd & wd & newd & HEd & Hcallsd & Hokd & _ & Hresd).
    rewrite Hd in HEd. injection HEd as <- <-.
    destruct Hresd as [Hbd Haddd].
    destruct (EvalInternal_run failing threads w_mid Hokd Hfit_failing)
      as (okf & wf & Hrunf & Hcallsf & _ & Hfstf & Hbuff).
    rewrite Hfail in Hfstf. subst okf.
    assert (Hall : EvalChunks (chunks (Z.to_nat batch_size) tokens) threads w
                   = Ok (false, wf)).
    { rewrite Hsplit, (EvalChunks_app_true threads done _ w w_mid Hd).
      cbn [EvalChunks]. rewrite (bind_run _ _ _ _ _ Hrunf). reflexivity. }
    rewrite Hall in HE. injection HE as <- <-.
    split; [reflexivity|]. split; [exact Hrunf|].
    split.
    { rewrite Hcallsf, Hcallsd, <- app_assoc in Hcalls.
      apply app_inv_head in Hcalls. rewrite <- Hcalls.
      rewrite eval_batches_app, Hbd. reflexivity. }
    split; [exact Hbuff|].
    rewrite Hbuff. exact Haddd.
Qed.

(** C6: [Init] is exactly-once. On a session that is already initialized it
    returns failure and changes nothing (the loader is not called; the
    vocabulary, the recency buffer, the logits and the context length are
    unchanged); when the loader fails, the session stays uninitialized. *)
Theorem C6_Init_exactly_once (filename : string) (w : World) :
  (initialized_ (self w) = true -> Init filename w = Ok (false, w))
  /\ (initialized_ (self w) = false ->
      fst (model_load filename (model_ (self w)) (vocab_ (self w))) = false ->
      exists w',
        Init filename w = Ok (false, w')
        /\ initialized_ (self w') = false
        /\ calls w' = calls w ++ [CallLoad filename])
  /\ (forall w',
        Init filename w = Ok (true, w') ->
        initialized_ (self w') = true
        /\ forall filename', Init filename' w' = Ok (false, w')).
Proof.
  assert (Again : forall f v, initialized_ (self v) = true -> Init f v = Ok (false, v)).
  { intros f v Hi. unfold Init, bind, get. simpl. rewrite Hi. reflexivity. }
  split; [apply Again|]. split.
  - intros Hi Hload.
    unfold Init, bind, get. simpl. rewrite Hi.
    unfold Load, bind, log, get, put, ret. simpl.
    destruct (model_load filename (model_ (self w)) (vocab_ (self w)))
      as [ok [m v]]. simpl in Hload. subst ok. simpl.
    eexists. split; [reflexivity|]. simpl. split; [assumption|reflexivity].
  - intros w' HI.
    assert (Hi' : initialized_ (self w') = true).
    { revert HI. unfold Init, bind, get. simpl.
      destruct (initialized_ (self w)); [discriminate|].
      unfold Load, bind, log, get, put, ret. simpl.
      destruct (model_load filename (model_ (self w)) (vocab_ (self w)))
        as [ok [m v]].
      destruct ok; simpl; [|discriminate].
      intros H. injection H as <-. reflexivity. }
    split; [assumption|]. intros f. apply Again. assumption.
Qed.

(** C7: [IsEosToken(t)] is true when [t] is the canonical end-of-sequence
    id, whatever the special tokens; for any other [t] it is true exactly
    when the vocabulary has at least one special token and [Detokenize(t)]
    is the text "### End" (so it is false with no special tokens). *)
Theorem C7_IsEosToken (s : LLM) (t : gpt_vocab_id) :
  (t = EosToken s -> IsEosToken s t = true)
  /\ (t <> EosToken s ->
      (IsEosToken s t = true
       <-> special_tokens (vocab_ s) <> []
           /\ Detokenize s t = "### End"%string))
  /\ (t <> EosToken s -> special_tokens (vocab_ s) = [] ->
      IsEosToken s t = false).
Proof.
  unfold IsEosToken. split; [|split].
  - intros ->. rewrite Z.eqb_refl. reflexivity.
  - intros Hne. destruct (Z.eqb_spec t (EosToken s)) as [E|_]; [contradiction|].
    destruct (special_tokens (vocab_ s)) as [|x l].
    + split; [discriminate|]. intros [H _]. contradiction.
    + rewrite String.eqb_eq. split; [intros H; split; [discriminate|exact H]|].
      intros [_ H]. exact H.
  - intros Hne Hnil. destruct (Z.eqb_spec t (EosToken s)) as [E|_]; [contradiction|].
    rewrite Hnil. reflexivity.
Qed.

(** C8: when no logits have been produced, [Sample] returns the
    end-of-sequence id for all parameter values, without reading the
    recency buffer, constructing the random generator or calling the
    sampler. *)
Theorem C8_Sample_without_logits (top_k : Z)
    (top_p temperature repetition_penalty : float)
    (last_n_tokens seed : Z) (w : World) :
  logits_ (self w) = [] ->
  Sample top_k top_p temperature repetition_penalty last_n_tokens seed w
  = Ok (EosToken (self w), w)
  /\ (forall rb, EosToken (set_previous_tokens rb (self w)) = EosToken (self w)).
Proof.
  intros Hl. split; [|reflexivity].
  unfold Sample, bind, get. simpl. rewrite Hl. reflexivity.
Qed.

(** C9, as the code has it: with [repetition_penalty] equal to [1.0], two
    sessions that have the same logits and vocabulary and differ arbitrarily
    in their recency buffers make the same calls with the same arguments,
    hand the sampler an empty set of recent tokens, and choose the same
    token for the same [top_k], [top_p], [temperature], [last_n_tokens] and
    [seed], when [seed] is not negative or, for a negative [seed], when both
    runs read the same clock. *)
Theorem C9_Sample_ignores_buffer_when_penalty_off (top_k : Z)
    (top_p temperature repetition_penalty : float)
    (last_n_tokens seed : Z) (w1 w2 : World) :
  float_ne repetition_penalty float_one = false ->
  logits_ (self w1) = logits_ (self w2) ->
  vocab_ (self w1) = vocab_ (self w2) ->
  (seed < 0 -> clock w1 = clock w2) ->
  (exists token new,
     Sample top_k top_p temperature repetition_penalty last_n_tokens seed w1
     = Ok (token, with_self (self w1) new w1)
     /\ Sample top_k top_p temperature repetition_penalty last_n_tokens seed w2
        = Ok (token, with_self (self w2) new w2)
     /\ Forall sampler_got_no_recent new
     /\ (logits_ (self w1) <> [] ->
         exists tail rng,
           new = [CallRng rng;
                  CallSampler tail top_k top_p temperature repetition_penalty
                    ∅ rng]))
  \/ (logits_ (self w1) <> []
      /\ logits_tail (self w1) = None
      /\ Sample top_k top_p temperature repetition_penalty last_n_tokens seed w1
         = Undefined
      /\ Sample top_k top_p temperature repetition_penalty last_n_tokens seed w2
         = Undefined).
Proof.
  intros Hrp Hlog Hvoc Hclk.
  assert (Htail : logits_tail (self w2) = logits_tail (self w1)).
  { unfold logits_tail, VocabSize. rewrite Hlog, Hvoc. reflexivity. }
  unfold Sample, bind, get. simpl. rewrite <- Hlog.
  destruct (logits_ (self w1)) as [|x l] eqn:El.
  - left. exists (EosToken (self w1)), [].
    unfold ret. rewrite !with_self_nil.
    split; [reflexivity|]. split; [|split; [constructor|congruence]].
    unfold EosToken. rewrite Hvoc. reflexivity.
  - unfold log, ret, defined, env. rewrite Hrp, Htail.
    destruct (logits_tail (self w1)) as [tail|] eqn:Et.
    + left.
      destruct (Z.ltb_spec seed 0) as [Hneg|Hpos]; simpl; rewrite <- Hvoc.
      * assert (Hsd : CInt.to_int (clock w2) = CInt.to_int (clock w1))
          by (rewrite (Hclk Hneg); reflexivity).
        rewrite Hsd.
        eexists _, [_; _]. unfold with_self. simpl.
        rewrite <- !app_assoc. simpl.
        split; [reflexivity|]. split; [reflexivity|].
        split; [repeat constructor|]. intros _. eexists _, _. reflexivity.
      * eexists _, [_; _]. unfold with_self. simpl.
        rewrite <- !app_assoc. simpl.
        split; [reflexivity|]. split; [reflexivity|].
        split; [repeat constructor|]. intros _. eexists _, _. reflexivity.
    + right. split; [discriminate|]. split; [reflexivity|].
      destruct (seed <? 0); split; reflexivity.
Qed.

(** C10: the canonical end-of-sequence id is the id the vocabulary gives to
    the text "<|endoftext|>"; when the vocabulary does not hold it, id 0 is
    used instead, so [Sample] without logits returns 0 and [IsEosToken(0)]
    is true. *)
Theorem C10_EosToken_fallback (top_k : Z)
    (top_p temperature repetition_penalty : float)
    (last_n_tokens seed : Z) (w : World) :
  (forall i, token_to_id (vocab_ (self w)) !! "<|endoftext|>"%string = Some i ->
             EosToken (self w) = i)
  /\ (token_to_id (vocab_ (self w)) !! "<|endoftext|>"%string = None ->
      EosToken (self w) = 0
      /\ IsEosToken (self w) 0 = true
      /\ (logits_ (self w) = [] ->
          Sample top_k top_p temperature repetition_penalty last_n_tokens seed w
          = Ok (0, w))).
Proof.
  split.
  - intros i Hi. unfold EosToken. rewrite Hi. reflexivity.
  - intros Hnone.
    assert (He : EosToken (self w) = 0).
    { unfold EosToken. rewrite Hnone. reflexivity. }
    split; [exact He|]. split.
    + unfold IsEosToken. rewrite He. reflexivity.
    + intros Hl. unfold Sample, bind, get. simpl. rewrite Hl, <- He. reflexivity.
Qed.

End Claims.

(** ** The claims at concrete inputs *)

(** A session of context length 8 whose recency buffer holds five tokens. *)
Lemma C3_witness :
  exists ok w',
    @EvalInternal Toy.arch [6; 7; 8] 2
      (Toy.world (Toy.session (RingBuffer.Make 8 [1; 2; 3; 4; 5] 5) []))
    = Ok (ok, w')
    /\ calls w' = [CallEval [6; 7; 8] 2 5].
Proof.
  destruct (@C3_EvalInternal_n_past Toy.arch [6; 7; 8] 2
              (Toy.world (Toy.session (RingBuffer.Make 8 [1; 2; 3; 4; 5] 5) [])))
    as (ok & w' & Hrun & _ & Hcalls).
  - unfold session_ok, RingBuffer.wf. simpl. lia.
  - vm_compute. discriminate.
  - exists ok, w'. split; [exact Hrun|].
    apply Hcalls; reflexivity.
Defined.

(** Ten tokens in batches of four on an empty buffer of capacity 8. *)
Lemma C4_witness :
  map length (chunks (Z.to_nat 4) [1; 2; 3; 4; 5; 6; 7; 8; 9; 10])
  = [4; 4; 2]%nat
  /\ exists ok w' new,
       @BatchEval Toy.arch 11 [1; 2; 3; 4; 5; 6; 7; 8; 9; 10] 4 2
         (Toy.world (Toy.session (RingBuffer.Make 8 [] 0) []))
       = Ok (ok, w')
       /\ calls w' = [] ++ new
       /\ Forall (fun c => is_eval c = true) new.
Proof.
  destruct (@C4_BatchEval_chunks Toy.arch [1; 2; 3; 4; 5; 6; 7; 8; 9; 10] 4 2 11%nat
              (Toy.world (Toy.session (RingBuffer.Make 8 [] 0) [])))
    as (_ & _ & _ & _ & (ok & w' & new & Hrun & Hcalls & Hev & _) & Hten).
  - vm_compute. split; discriminate.
  - vm_compute. discriminate.
  - simpl. lia.
  - unfold session_ok, RingBuffer.wf. simpl. lia.
  - split; [apply Hten; reflexivity|].
    exists ok, w', new. split; [exact Hrun|]. split; [exact Hcalls|exact Hev].
Defined.

(** The second batch holds a negative id, which the forward pass rejects:
    the third batch is never evaluated. *)
Lemma C5_witness :
  exists ok w' new,
    @BatchEval Toy.arch 11 [1; 2; 3; 4; 5; 6; -7; 8; 9; 10] 4 2
      (Toy.world (Toy.session (RingBuffer.Make 8 [] 0) []))
    = Ok (ok, w')
    /\ calls w' = [] ++ new
    /\ ok = false
    /\ eval_batches new = [[1; 2; 3; 4]] ++ [[5; 6; -7; 8]].
Proof.
  destruct (@C5_failure_keeps_committed_chunks Toy.arch
              [1; 2; 3; 4; 5; 6; -7; 8; 9; 10] 2
              (Toy.world (Toy.session (RingBuffer.Make 8 [] 0) [])))
    as [_ Hbatch].
  - unfold session_ok, RingBuffer.wf. simpl. lia.
  - vm_compute. discriminate.
  - destruct (Hbatch 4 11%nat)
      as (ok & w' & new & Hrun & Hcalls & _ & _ & _ & Hstop).
    + vm_compute. split; discriminate.
    + simpl. lia.
    + exists ok, w', new. split; [exact Hrun|]. split; [exact Hcalls|].
      edestruct (Hstop [[1; 2; 3; 4]] [5; 6; -7; 8] [[9; 10]])
        as (Hfalse & _ & Hbatches & _).
      * reflexivity.
      * vm_compute. reflexivity.
      * reflexivity.
      * split; [exact Hfalse|exact Hbatches].
Defined.

(** A second [Init] on an initialized session, and a failing loader on a
    default-constructed one. *)
Lemma C6_witness :
  @Init Toy.arch "model.bin" (Toy.world (Toy.session (RingBuffer.Make 8 [] 0) []))
  = Ok (false, Toy.world (Toy.session (RingBuffer.Make 8 [] 0) []))
  /\ exists w',
       @Init Toy.arch "" (Toy.world Toy.fresh) = Ok (false, w')
       /\ initialized_ (self w') = false
       /\ calls w' = [] ++ [CallLoad ""].
Proof.
  destruct (@C6_Init_exactly_once Toy.arch "model.bin"
              (Toy.world (Toy.session (RingBuffer.Make 8 [] 0) [])))
    as (Hagain & _ & _).
  destruct (@C6_Init_exactly_once Toy.arch "" (Toy.world Toy.fresh))
    as (_ & Hfail & _).
  split.
  - apply Hagain. reflexivity.
  - apply Hfail; reflexivity.
Defined.

(** In the vocabulary of [Toy], id 2 is the end-of-sequence token and id 3
    is the text "### End". *)
Lemma C7_witness :
  @IsEosToken Toy.arch (Toy.session (RingBuffer.Make 8 [] 0) []) 2 = true
  /\ (@IsEosToken Toy.arch (Toy.session (RingBuffer.Make 8 [] 0) []) 3 = true
      <-> special_tokens (vocab_ (Toy.session (RingBuffer.Make 8 [] 0) [])) <> []
          /\ @Detokenize Toy.arch (Toy.session (RingBuffer.Make 8 [] 0) []) 3
             = "### End"%string).
Proof.
  destruct (@C7_IsEosToken Toy.arch (Toy.session (RingBuffer.Make 8 [] 0) []) 2)
    as (Heos & _ & _).
  destruct (@C7_IsEosToken Toy.arch (Toy.session (RingBuffer.Make 8 [] 0) []) 3)
    as (_ & Hend & _).
  split.
  - apply Heos. reflexivity.
  - apply Hend. vm_compute. discriminate.
Defined.

Lemma C8_witness :
  @Sample Toy.arch Toy.sampler 40 float_one float_one (S754_zero false) 64 7
    (Toy.world (Toy.session (RingBuffer.Make 8 [1; 2; 3] 3) []))
  = Ok (2, Toy.world (Toy.session (RingBuffer.Make 8 [1; 2; 3] 3) [])).
Proof.
  apply (@C8_Sample_without_logits Toy.arch Toy.sampler 40 float_one float_one
           (S754_zero false) 64 7
           (Toy.world (Toy.session (RingBuffer.Make 8 [1; 2; 3] 3) []))).
  reflexivity.
Defined.

(** Two sessions with the same logits, different recency buffers and
    different clocks, sampled with seed 7. *)
Lemma C9_witness :
  (exists token new,
     @Sample Toy.arch Toy.sampler 40 float_one float_one float_one 64 7
       (Toy.world (Toy.session (RingBuffer.Make 8 [1; 2; 3] 3)
                     [S754_zero false; float_one]))
     = Ok (token,
           with_self (Toy.session (RingBuffer.Make 8 [1; 2; 3] 3)
                        [S754_zero false; float_one]) new
             (Toy.world (Toy.session (RingBuffer.Make 8 [1; 2; 3] 3)
                           [S754_zero false; float_one])))
     /\ @Sample Toy.arch Toy.sampler 40 float_one float_one float_one 64 7
          (@Build_World Toy.arch
             (Toy.session (RingBuffer.Make 8 [5; 6] 2)
                [S754_zero false; float_one]) 1700000001 8 [])
        = Ok (token,
              with_self (Toy.session (RingBuffer.Make 8 [5; 6] 2)
                           [S754_zero false; float_one]) new
                (@Build_World Toy.arch
                   (Toy.session (RingBuffer.Make 8 [5; 6] 2)
                      [S754_zero false; float_one]) 1700000001 8 []))
     /\ Forall sampler_got_no_recent new).
Proof.
  destruct (@C9_Sample_ignores_buffer_when_penalty_off Toy.arch Toy.sampler
              40 float_one float_one float_one 64 7
              (Toy.world (Toy.session (RingBuffer.Make 8 [1; 2; 3] 3)
                            [S754_zero false; float_one]))
              (@Build_World Toy.arch
                 (Toy.session (RingBuffer.Make 8 [5; 6] 2)
                    [S754_zero false; float_one]) 1700000001 8 []))
    as [(token & new & H1 & H2 & H3 & _)|(_ & Hnone & _)].
  - reflexivity.
  - reflexivity.
  - reflexivity.
  - intros Hneg. lia.
  - exists token, new. split; [exact H1|]. split; [exact H2|exact H3].
  - vm_compute in Hnone. discriminate.
Defined.

(** C9 as stated fails for a negative seed: the generator is then seeded
    from the clock, so two runs with penalty [1.0], the same logits and
    vocabulary and seed -1 that read the clock one second apart hand the
    sampler different generators and choose different tokens. *)
Lemma C9_counterexample :
  float_ne float_one float_one = false
  /\ exists v1 v2,
       @Sample Toy.arch Toy.sampler 40 float_one float_one float_one 64 (-1)
         (@Build_World Toy.arch
            (Toy.session (RingBuffer.Make 8 [1; 2; 3] 3)
               [S754_zero false; float_one]) 1700000000 8 [])
       = Ok (1700000002, v1)
       /\ @Sample Toy.arch Toy.sampler 40 float_one float_one float_one 64 (-1)
            (@Build_World Toy.arch
               (Toy.session (RingBuffer.Make 8 [5; 6] 2)
                  [S754_zero false; float_one]) 1700000001 8 [])
          = Ok (1700000003, v2)
       /\ 1700000002 <> 1700000003.
Proof.
  split; [reflexivity|].
  eexists _, _. split; [vm_compute; reflexivity|].
  split; [vm_compute; reflexivity|]. lia.
Qed.

(** The vocabulary of a default-constructed object has no "<|endoftext|>". *)
Lemma C10_witness :
  @EosToken Toy.arch Toy.fresh = 0
  /\ @IsEosToken Toy.arch Toy.fresh 0 = true
  /\ @Sample Toy.arch Toy.sampler 40 float_one float_one float_one 64 7
       (Toy.world Toy.fresh)
     = Ok (0, Toy.world Toy.fresh).
Proof.
  destruct (@C10_EosToken_fallback Toy.arch Toy.sampler 40 float_one float_one
              float_one 64 7 (Toy.world Toy.fresh)) as (_ & Hnone).
  destruct Hnone as (H1 & H2 & H3); [reflexivity|].
  split; [exact H1|]. split; [exact H2|]. apply H3. reflexivity.
Defined.

(** * Further properties of the code *)

(** ** RingBuffer *)

Lemma Add_pos token rb rb' :
  RingBuffer.wf rb ->
  RingBuffer.Add token rb = Some rb' ->
  RingBuffer.pos_ rb' = (RingBuffer.pos_ rb + 1) mod RingBuffer.capacity_ rb.
Proof.
  intros (Hc & Hp & Hs). unfold RingBuffer.Add.
  destruct (if RingBuffer.Size rb <? RingBuffer.capacity_ rb
            then Some (RingBuffer.tokens_ rb ++ [token])
            else Vec.store (RingBuffer.tokens_ rb) (RingBuffer.pos_ rb) token)
    as [tokens'|]; simpl; [|discriminate].
  rewrite add_fits by (unfold CInt.INT_MIN, CInt.INT_MAX; lia). simpl.
  rewrite rem_nonneg by (unfold CInt.INT_MAX; lia). simpl.
  intros H. injection H as <-. reflexivity.
Qed.

Lemma last_n_subseteq {A} (a b : nat) (l : list A) :
  (a <= b)%nat -> last_n a l ⊆ last_n b l.
Proof.
  intros H. rewrite <- (last_n_last_n a b l H).
  unfold last_n at 1. apply subseteq_drop.
Qed.

(** X1: on a well-formed buffer [Add] always succeeds and keeps the buffer
    well formed with the same capacity. While the buffer is not full the
    token is appended and the size grows by one; once it is full the oldest
    retained token is dropped, the new one becomes the newest, and the size
    stays at the capacity. *)
Theorem X1_Add_appends_or_evicts_oldest (token : gpt_vocab_id) (rb : RingBuffer.t) :
  RingBuffer.wf rb ->
  exists rb',
    RingBuffer.Add token rb = Some rb'
    /\ RingBuffer.wf rb'
    /\ RingBuffer.capacity_ rb' = RingBuffer.capacity_ rb
    /\ (RingBuffer.Size rb < RingBuffer.capacity_ rb ->
        RingBuffer.contents rb' = RingBuffer.contents rb ++ [token]
        /\ RingBuffer.Size rb' = RingBuffer.Size rb + 1)
    /\ (RingBuffer.Size rb = RingBuffer.capacity_ rb ->
        RingBuffer.contents rb' = drop 1 (RingBuffer.contents rb) ++ [token]
        /\ RingBuffer.Size rb' = RingBuffer.capacity_ rb).
Proof.
  intros Hwf.
  destruct (Add_wf token rb Hwf) as (rb' & HA & Hwf' & Hcap & Hcont).
  exists rb'. split; [assumption|]. split; [assumption|]. split; [assumption|].
  pose proof (contents_length rb Hwf) as HL.
  pose proof (contents_length rb' Hwf') as HL'.
  rewrite (Size_wf rb Hwf), (Size_wf rb' Hwf'), <- HL, <- HL'.
  destruct Hwf as (Hc & _).
  split; intros Hsize.
  - rewrite Hcont, last_n_all by (rewrite length_app; simpl; lia).
    split; [reflexivity|]. rewrite length_app. simpl. lia.
  - assert (Hd : RingBuffer.contents rb'
                 = drop 1 (RingBuffer.contents rb) ++ [token]).
    { rewrite Hcont. unfold last_n. rewrite length_app. simpl.
      replace (length (RingBuffer.contents rb) + 1
               - Z.to_nat (RingBuffer.capacity_ rb))%nat with 1%nat by lia.
      apply drop_app_le. lia. }
    split; [exact Hd|]. rewrite Hd, length_app, length_drop. simpl. lia.
Qed.

Lemma X1_witness :
  exists rb',
    RingBuffer.Add 9 (RingBuffer.Make 3 [4; 2; 3] 1) = Some rb'
    /\ RingBuffer.contents rb'
       = drop 1 (RingBuffer.contents (RingBuffer.Make 3 [4; 2; 3] 1)) ++ [9].
Proof.
  destruct (X1_Add_appends_or_evicts_oldest 9 (RingBuffer.Make 3 [4; 2; 3] 1))
    as (rb' & HA & _ & _ & _ & Hfull).
  - unfold RingBuffer.wf. simpl. lia.
  - exists rb'. split; [exact HA|]. apply Hfull. reflexivity.
Defined.

(** X2: after [Init(capacity)] with a positive capacity and [k] calls of
    [Add], the write cursor is [k mod capacity]. *)
Theorem X2_cursor_counts_insertions (capacity : Z) (rb0 rb : RingBuffer.t)
    (tokens : list gpt_vocab_id) :
  0 < capacity <= 2 ^ 30 ->
  RingBuffer.AddAll tokens (RingBuffer.Init capacity rb0) = Some rb ->
  RingBuffer.pos_ rb = Z.of_nat (length tokens) mod capacity.
Proof.
  intros Hc.
  assert (Gen : forall ts r r',
            RingBuffer.wf r -> RingBuffer.AddAll ts r = Some r' ->
            RingBuffer.pos_ r'
            = (RingBuffer.pos_ r + Z.of_nat (length ts)) mod RingBuffer.capacity_ r).
  { induction ts as [|t ts IH]; intros r r' Hwf HA.
    - simpl in HA. injection HA as <-. simpl. rewrite Z.add_0_r.
      destruct Hwf as (Hcap & Hp & Hs). symmetry. apply Z.mod_small. lia.
    - simpl in HA.
      destruct (Add_wf t r Hwf) as (r1 & H1 & Hwf1 & Hcap1 & _).
      rewrite H1 in HA. simpl in HA.
      rewrite (IH r1 r' Hwf1 HA), (Add_pos t r r1 Hwf H1), Hcap1.
      rewrite Zplus_mod_idemp_l. f_equal. simpl length. lia. }
  intros HA. rewrite (Gen tokens _ rb (wf_Init capacity rb0 Hc) HA).
  reflexivity.
Qed.

Lemma X2_witness :
  RingBuffer.pos_ (RingBuffer.Make 3 [4; 2; 3] 1)
  = Z.of_nat (length [1; 2; 3; 4]) mod 3.
Proof.
  apply (X2_cursor_counts_insertions 3 (RingBuffer.Make 0 [] 0)
           (RingBuffer.Make 3 [4; 2; 3] 1) [1; 2; 3; 4]).
  - lia.
  - reflexivity.
Defined.

(** X3: [Clear] keeps the capacity and forgets every stored token: the
    buffer is empty afterwards, and whatever it held before, the tokens
    added after [Clear] are the only ones [GetRecent] can return. *)
Theorem X3_Clear_forgets (rb : RingBuffer.t) (tokens : list gpt_vocab_id) (n : Z) :
  0 < RingBuffer.capacity_ rb <= 2 ^ 30 ->
  0 < n ->
  RingBuffer.capacity_ (RingBuffer.Clear rb) = RingBuffer.capacity_ rb
  /\ RingBuffer.Size (RingBuffer.Clear rb) = 0
  /\ RingBuffer.GetRecent n (RingBuffer.Clear rb) = Some ∅
  /\ exists rb',
       RingBuffer.AddAll tokens (RingBuffer.Clear rb) = Some rb'
       /\ RingBuffer.GetRecent n rb'
          = Some (list_to_set
                    (last_n (Z.to_nat (Z.min (Z.min (Z.of_nat (length tokens))
                                                (RingBuffer.capacity_ rb)) n))
                       tokens)).
Proof.
  intros Hc Hn.
  assert (Hwf : RingBuffer.wf (RingBuffer.Clear rb)).
  { unfold RingBuffer.wf, RingBuffer.Clear. simpl. lia. }
  split; [reflexivity|]. split; [reflexivity|]. split.
  { unfold RingBuffer.GetRecent.
    change (RingBuffer.Size (RingBuffer.Clear rb)) with 0.
    rewrite Z.min_l by lia. reflexivity. }
  destruct (AddAll_wf tokens _ Hwf) as (rb' & HA & Hwf' & Hcap & Hcont).
  exists rb'. split; [assumption|].
  simpl in Hcap, Hcont.
  assert (HS : RingBuffer.Size rb'
               = Z.min (Z.of_nat (length tokens)) (RingBuffer.capacity_ rb)).
  { rewrite Size_wf by assumption.
    rewrite <- contents_length by assumption.
    rewrite Hcont, last_n_length. lia. }
  rewrite GetRecent_wf by assumption.
  rewrite HS, Hcont, last_n_last_n by lia. reflexivity.
Qed.

Lemma X3_witness :
  exists rb',
    RingBuffer.AddAll [8; 9] (RingBuffer.Clear (RingBuffer.Make 3 [4; 2; 3] 1))
    = Some rb'
    /\ RingBuffer.GetRecent 5 rb'
       = Some (list_to_set
                 (last_n (Z.to_nat (Z.min (Z.min (Z.of_nat (length [8; 9])) 3) 5))
                    [8; 9])).
Proof.
  destruct (X3_Clear_forgets (RingBuffer.Make 3 [4; 2; 3] 1) [8; 9] 5)
    as (_ & _ & _ & H).
  - simpl. lia.
  - lia.
  - exact H.
Defined.

(** X4: on a well-formed buffer, [GetRecent(n)] with [n] at least the size
    returns the ids of all retained tokens, and a larger argument never
    returns fewer ids: [GetRecent(n)] is a subset of [GetRecent(m)] for
    [0 < n <= m]. *)
Theorem X4_GetRecent_saturates_and_is_monotone (rb : RingBuffer.t) (n m : Z) :
  RingBuffer.wf rb ->
  0 < n <= m ->
  (exists s1 s2,
     RingBuffer.GetRecent n rb = Some s1
     /\ RingBuffer.GetRecent m rb = Some s2
     /\ s1 ⊆ s2
     /\ s2 ⊆ list_to_set (RingBuffer.tokens_ rb))
  /\ (RingBuffer.Size rb <= n ->
      RingBuffer.GetRecent n rb = Some (list_to_set (RingBuffer.tokens_ rb))).
Proof.
  intros Hwf Hnm.
  pose proof (Size_wf rb Hwf) as HS.
  pose proof (contents_length rb Hwf) as HL.
  assert (Hall : (list_to_set (RingBuffer.contents rb) : gset Z)
                 = list_to_set (RingBuffer.tokens_ rb)).
  { unfold RingBuffer.contents. rewrite list_to_set_app_L.
    rewrite (comm_L (∪)), <- list_to_set_app_L, take_drop. reflexivity. }
  rewrite !GetRecent_wf by (assumption || lia).
  split.
  - eexists _, _. split; [reflexivity|]. split; [reflexivity|]. split.
    + intros x. rewrite !elem_of_list_to_set. apply last_n_subseteq. lia.
    + rewrite <- Hall. intros x. rewrite !elem_of_list_to_set.
      unfold last_n. apply subseteq_drop.
  - intros Hge. rewrite last_n_all by lia. rewrite Hall. reflexivity.
Qed.

Lemma X4_witness :
  RingBuffer.GetRecent 7 (RingBuffer.Make 3 [4; 2; 3] 1)
  = Some (list_to_set [4; 2; 3]).
Proof.
  destruct (X4_GetRecent_saturates_and_is_monotone
              (RingBuffer.Make 3 [4; 2; 3] 1) 7 7) as [_ H].
  - unfold RingBuffer.wf. simpl. lia.
  - lia.
  - apply H. vm_compute. discriminate.
Defined.

Lemma AddAll_nonpositive_capacity capacity rb0 token tokens :
  capacity <= 0 ->
  RingBuffer.AddAll (token :: tokens) (RingBuffer.Init capacity rb0) = None.
Proof.
  intros Hc.
  assert (HA : RingBuffer.Add token (RingBuffer.Init capacity rb0) = None).
  { unfold RingBuffer.Add, RingBuffer.Init, RingBuffer.Clear. simpl.
    change (RingBuffer.Size _) with 0.
    destruct (Z.ltb_spec 0 capacity); [lia|]. reflexivity. }
  simpl. rewrite HA. reflexivity.
Qed.

(** X5: [Init] accepts any capacity, but with a capacity of zero or less
    the first [Add] has no defined result (it writes to slot 0 of an empty
    vector), and so has every sequence of [Add] calls; [GetRecent] still
    returns the empty set. *)
Theorem X5_nonpositive_capacity (capacity : Z) (rb0 : RingBuffer.t)
    (token : gpt_vocab_id) (tokens : list gpt_vocab_id) (n : Z) :
  capacity <= 0 ->
  RingBuffer.Add token (RingBuffer.Init capacity rb0) = None
  /\ RingBuffer.AddAll (token :: tokens) (RingBuffer.Init capacity rb0) = None
  /\ (0 <= n -> RingBuffer.GetRecent n (RingBuffer.Init capacity rb0) = Some ∅).
Proof.
  intros Hc.
  assert (HA : RingBuffer.Add token (RingBuffer.Init capacity rb0) = None).
  { unfold RingBuffer.Add, RingBuffer.Init, RingBuffer.Clear. simpl.
    change (RingBuffer.Size _) with 0.
    destruct (Z.ltb_spec 0 capacity); [lia|]. reflexivity. }
  split; [exact HA|]. split.
  - apply AddAll_nonpositive_capacity. exact Hc.
  - intros Hn. unfold RingBuffer.GetRecent.
    change (RingBuffer.Size _) with 0.
    rewrite Z.min_l by lia. reflexivity.
Qed.

Lemma X5_witness :
  RingBuffer.Add 7 (RingBuffer.Init 0 (RingBuffer.Make 5 [1] 1)) = None.
Proof.
  apply (X5_nonpositive_capacity 0 (RingBuffer.Make 5 [1] 1) 7 [] 0). lia.
Defined.

Lemma GetRecent_nonneg n rb :
  RingBuffer.wf rb -> 0 <= n ->
  RingBuffer.GetRecent n rb
  = Some (list_to_set
            (last_n (Z.to_nat (Z.min (RingBuffer.Size rb) n))
               (RingBuffer.contents rb))).
Proof.
  intros Hwf Hn. destruct (Z.eq_dec n 0) as [->|Hne].
  - pose proof (Size_wf rb Hwf) as HS.
    unfold RingBuffer.GetRecent. rewrite HS, Z.min_r by lia.
    simpl. unfold last_n. rewrite Nat.sub_0_r, drop_all. reflexivity.
  - apply GetRecent_wf; [assumption|lia].
Qed.

(** ** The session *)

Section Coverage.

Context {arch : Architecture} {sampler : Sampler}.

Lemma AddAll_Size tokens rb rb' :
  RingBuffer.wf rb ->
  RingBuffer.AddAll tokens rb = Some rb' ->
  RingBuffer.Size rb'
  = Z.min (RingBuffer.Size rb + Z.of_nat (length tokens)) (RingBuffer.capacity_ rb).
Proof.
  intros Hwf HA.
  destruct (AddAll_wf tokens rb Hwf) as (r & HA' & Hwf' & Hcap & Hcont).
  assert (r = rb') by congruence. subst r.
  rewrite !Size_wf by assumption.
  rewrite <- (contents_length _ Hwf'), <- (contents_length _ Hwf).
  rewrite Hcont, last_n_length, length_app.
  destruct Hwf as (Hc & _). lia.
Qed.

(** What an evaluation step leaves alone. *)
Lemma EvalInternal_frame tokens threads w ok w' :
  session_ok (self w) ->
  Z.of_nat (length tokens) <= CInt.INT_MAX ->
  EvalInternal tokens threads w = Ok (ok, w') ->
  n_ctx_ (self w') = n_ctx_ (self w)
  /\ vocab_ (self w') = vocab_ (self w)
  /\ initialized_ (self w') = initialized_ (self w)
  /\ clock w' = clock w
  /\ hardware_concurrency w' = hardware_concurrency w.
Proof.
  intros Hok Hlen. rewrite EvalInternal_eq by assumption. cbv zeta.
  destruct (fst (model_eval _ _ _ _ _ _)).
  - destruct (RingBuffer.AddAll tokens (previous_tokens_ (self w)));
      [|discriminate].
    intros H. injection H as <- <-. repeat split; reflexivity.
  - intros H. injection H as <- <-. repeat split; reflexivity.
Qed.

Lemma EvalChunks_frame threads cs : forall w ok w',
  session_ok (self w) ->
  Forall (fun c => Z.of_nat (length c) <= CInt.INT_MAX) cs ->
  EvalChunks cs threads w = Ok (ok, w') ->
  n_ctx_ (self w') = n_ctx_ (self w)
  /\ vocab_ (self w') = vocab_ (self w)
  /\ initialized_ (self w') = initialized_ (self w)
  /\ clock w' = clock w
  /\ hardware_concurrency w' = hardware_concurrency w.
Proof.
  induction cs as [|c cs IH]; intros w ok w' Hok Hlen.
  - simpl. unfold ret. intros H. injection H as <- <-. repeat split; reflexivity.
  - inversion Hlen as [|? ? Hc Hcs]; subst.
    destruct (EvalInternal_run c threads w Hok Hc)
      as (ok1 & w1 & Hrun & _ & Hok1 & _).
    pose proof (EvalInternal_frame c threads w ok1 w1 Hok Hc Hrun)
      as (F1 & F2 & F3 & F4 & F5).
    cbn [EvalChunks]. rewrite (bind_run _ _ _ _ _ Hrun).
    destruct ok1; cbn [negb].
    + intros H. destruct (IH w1 ok w' Hok1 Hcs H) as (G1 & G2 & G3 & G4 & G5).
      repeat split; congruence.
    + unfold ret. intros H. injection H as <- <-. repeat split; assumption.
Qed.

Lemma BatchEval_as_chunks tokens batch_size threads fuel w :
  1 <= batch_size <= CInt.INT_MAX ->
  Z.of_nat (length tokens) <= 2 ^ 30 ->
  (length tokens < fuel)%nat ->
  BatchEval fuel tokens batch_size threads w
  = EvalChunks (chunks (Z.to_nat batch_size) tokens) threads w.
Proof.
  intros Hbs Hlen Hfuel. unfold BatchEval.
  rewrite to_int_small by (unfold CInt.INT_MIN, CInt.INT_MAX; lia).
  rewrite BatchEval_loop_chunks; try assumption; try lia.
  - reflexivity.
  - simpl. rewrite drop_0.
    pose proof (chunks_length_le (Z.to_nat batch_size) tokens ltac:(lia)). lia.
Qed.

Lemma chunks_lengths_fit batch_size (tokens : list gpt_vocab_id) :
  1 <= batch_size <= CInt.INT_MAX ->
  Forall (fun c => Z.of_nat (length c) <= CInt.INT_MAX)
    (chunks (Z.to_nat batch_size) tokens).
Proof.
  intros Hbs.
  destruct (chunks_shape (Z.to_nat batch_size) tokens ltac:(lia)) as [Hsh _].
  eapply Forall_impl; [exact Hsh|]. simpl. intros c Hc. lia.
Qed.

(** X6: [Init] always returns. It returns true exactly when the session was
    not initialized and the loader succeeded; the loader is called once on
    an uninitialized session and not at all otherwise. On success the
    context length and the vocabulary are the loader's and the recency
    buffer is empty with the context length as capacity; on failure the
    context length and the recency buffer are those from before. The logits
    are never touched. *)
Theorem X6_Init_outcome (filename : string) (w : World) :
  exists ok w',
    Init filename w = Ok (ok, w')
    /\ ok = negb (initialized_ (self w))
            && fst (model_load filename (model_ (self w)) (vocab_ (self w)))
    /\ initialized_ (self w') = initialized_ (self w) || ok
    /\ calls w'
       = calls w ++ (if initialized_ (self w) then [] else [CallLoad filename])
    /\ logits_ (self w') = logits_ (self w)
    /\ (if ok
        then n_ctx_ (self w')
             = hparams_n_ctx
                 (fst (snd (model_load filename (model_ (self w)) (vocab_ (self w)))))
             /\ vocab_ (self w')
                = snd (snd (model_load filename (model_ (self w)) (vocab_ (self w))))
             /\ previous_tokens_ (self w')
                = RingBuffer.Make (n_ctx_ (self w')) [] 0
        else n_ctx_ (self w') = n_ctx_ (self w)
             /\ previous_tokens_ (self w') = previous_tokens_ (self w)).
Proof.
  unfold Init, bind, get. simpl.
  destruct (initialized_ (self w)) eqn:Hi.
  - exists false, w. simpl. rewrite ?Hi, app_nil_r.
    repeat split; reflexivity.
  - unfold Load, bind, log, get, put, ret. simpl.
    destruct (model_load filename (model_ (self w)) (vocab_ (self w)))
      as [ok [m v]].
    destruct ok; simpl.
    + eexists true, _. split; [reflexivity|]. simpl. rewrite ?Hi.
      repeat split; reflexivity.
    + eexists false, _. split; [reflexivity|]. simpl. rewrite ?Hi.
      repeat split; reflexivity.
Qed.

(** X7: a failed load does not use up the session: after [Init] has failed
    because the loader failed, a further [Init] calls the loader again, on
    the model and vocabulary the failed load left behind, and succeeds when
    that load succeeds. *)
Theorem X7_Init_can_be_retried (filename1 filename2 : string) (w : World) :
  initialized_ (self w) = false ->
  fst (model_load filename1 (model_ (self w)) (vocab_ (self w))) = false ->
  exists w1,
    Init filename1 w = Ok (false, w1)
    /\ model_ (self w1)
       = fst (snd (model_load filename1 (model_ (self w)) (vocab_ (self w))))
    /\ vocab_ (self w1)
       = snd (snd (model_load filename1 (model_ (self w)) (vocab_ (self w))))
    /\ (fst (model_load filename2 (model_ (self w1)) (vocab_ (self w1))) = true ->
        exists w2,
          Init filename2 w1 = Ok (true, w2)
          /\ initialized_ (self w2) = true
          /\ calls w2 = calls w ++ [CallLoad filename1; CallLoad filename2]).
Proof.
  intros Hi Hfail.
  unfold Init, bind, get. simpl. rewrite Hi.
  unfold Load, bind, log, get, put, ret. simpl.
  destruct (model_load filename1 (model_ (self w)) (vocab_ (self w)))
    as [ok [m v]]. simpl in Hfail. subst ok. simpl.
  eexists. split; [reflexivity|]. simpl.
  split; [reflexivity|]. split; [reflexivity|].
  rewrite Hi. intros Hload. cbn in Hload |- *.
  destruct (model_load filename2 m v) as [ok2 [m2 v2]].
  cbn in Hload. subst ok2. cbn.
  eexists. split; [reflexivity|]. simpl.
  split; [reflexivity|]. rewrite <- app_assoc. reflexivity.
Qed.

(** X8: [Reset] empties the logits and the recency buffer and leaves the
    context length, the capacity, the vocabulary, the model state and the
    initialized flag as they are. So after [Reset] the session is still
    well formed, [Sample] returns the end-of-sequence id, [Init] still
    fails on an initialized session, and the next evaluation step passes
    [n_past = min(n_ctx - L, 0)]. *)
Theorem X8_Reset (s : LLM) (w : World) :
  self w = Reset s ->
  logits_ (self w) = []
  /\ RingBuffer.Size (previous_tokens_ (self w)) = 0
  /\ RingBuffer.capacity_ (previous_tokens_ (self w))
     = RingBuffer.capacity_ (previous_tokens_ s)
  /\ n_ctx_ (self w) = n_ctx_ s
  /\ vocab_ (self w) = vocab_ s
  /\ model_ (self w) = model_ s
  /\ initialized_ (self w) = initialized_ s
  /\ Reset (self w) = self w
  /\ (forall top_k top_p temperature repetition_penalty last_n_tokens seed,
        Sample top_k top_p temperature repetition_penalty last_n_tokens seed w
        = Ok (EosToken s, w))
  /\ (initialized_ s = true ->
      forall filename, Init filename w = Ok (false, w))
  /\ (session_ok s ->
      session_ok (self w)
      /\ forall tokens threads,
           Z.of_nat (length tokens) <= CInt.INT_MAX ->
           exists ok w',
             EvalInternal tokens threads w = Ok (ok, w')
             /\ calls w'
                = calls w ++ [CallEval tokens (threads_used w threads)
                                (Z.min (n_ctx_ s - Z.of_nat (length tokens)) 0)]).
Proof.
  intros Hw.
  assert (Hs : session_ok s -> session_ok (self w)).
  { rewrite Hw. apply Reset_session_ok. }
  rewrite Hw. simpl.
  repeat (split; [reflexivity|]).
  split.
  { intros. unfold Sample, bind, get. simpl. rewrite Hw. reflexivity. }
  split.
  { intros Hi f. unfold Init, bind, get. simpl. rewrite Hw. simpl.
    rewrite Hi. reflexivity. }
  intros Hok. rewrite <- Hw. split; [apply Hs; exact Hok|].
  intros tokens threads Hlen.
  destruct (EvalInternal_run tokens threads w (Hs Hok) Hlen)
    as (ok & w' & Hrun & Hcalls & _).
  exists ok, w'. split; [exact Hrun|].
  rewrite Hcalls. unfold n_past_of. rewrite Hw. reflexivity.
Qed.

(** X9: on a well-formed session the [n_past] handed to the forward pass
    never exceeds the occupancy of the recency buffer, and [n_past] plus
    the length of the batch never exceeds the context length; it is
    negative exactly when the batch is longer than the context length. *)
Theorem X9_n_past_bounds (tokens : list gpt_vocab_id) (threads : Z) (w : World) :
  session_ok (self w) ->
  Z.of_nat (length tokens) <= CInt.INT_MAX ->
  exists ok w' thr n_past,
    EvalInternal tokens threads w = Ok (ok, w')
    /\ calls w' = calls w ++ [CallEval tokens thr n_past]
    /\ n_past <= RingBuffer.Size (previous_tokens_ (self w))
    /\ n_past + Z.of_nat (length tokens) <= n_ctx_ (self w)
    /\ (n_past < 0 <-> n_ctx_ (self w) < Z.of_nat (length tokens))
    /\ (thr = threads \/ (threads < 0 /\ thr <= 4)).
Proof.
  intros Hok Hlen.
  destruct (EvalInternal_run tokens threads w Hok Hlen)
    as (ok & w' & Hrun & Hcalls & _).
  exists ok, w', (threads_used w threads), (n_past_of (self w) tokens).
  split; [exact Hrun|]. split; [exact Hcalls|].
  destruct Hok as [Hwf _]. pose proof (Size_wf _ Hwf) as HS.
  unfold n_past_of, threads_used.
  split; [lia|]. split; [lia|]. split; [lia|].
  destruct (Z.ltb_spec threads 0); [right; lia|left; reflexivity].
Qed.

(** X10: [BatchEval] on an empty token sequence returns success at once,
    for every batch size (also zero or negative), without calling the
    forward pass or changing anything; with a negative batch size and at
    least one token it has no defined result, because the first batch is
    cut from an iterator range that ends before it begins. *)
Theorem X10_BatchEval_empty_or_negative_batch_size (tokens : list gpt_vocab_id)
    (batch_size threads : Z) (fuel : nat) (w : World) :
  BatchEval (S fuel) [] batch_size threads w = Ok (true, w)
  /\ (tokens <> [] ->
      Z.of_nat (length tokens) <= CInt.INT_MAX ->
      batch_size < 0 ->
      BatchEval (S fuel) tokens batch_size threads w = Undefined).
Proof.
  split; [reflexivity|].
  intros Hne Hlen Hbs. unfold BatchEval.
  rewrite to_int_small by (unfold CInt.INT_MIN, CInt.INT_MAX in *; lia).
  cbn [BatchEval_loop].
  assert (0 < Z.of_nat (length tokens)).
  { destruct tokens; [congruence|simpl; lia]. }
  destruct (Z.ltb_spec 0 (Z.of_nat (length tokens))); [|lia].
  unfold bind at 1. unfold defined at 1. unfold CInt.add, CInt.checked.
  destruct (CInt.fits (0 + batch_size)); [|reflexivity].
  unfold bind at 1. unfold defined at 1. unfold Vec.range.
  rewrite to_int_small by (unfold CInt.INT_MIN, CInt.INT_MAX in *; lia).
  rewrite Z.min_l by lia.
  destruct (Z.leb_spec 0 (0 + batch_size)); [lia|]. reflexivity.
Qed.

(** X11: with batch size zero and at least one token, [BatchEval] does not
    terminate as long as the forward pass accepts the empty batch: the
    cursor never advances, so no amount of fuel is enough. *)
Theorem X11_BatchEval_zero_batch_size (tokens : list gpt_vocab_id)
    (threads : Z) (fuel : nat) (w : World) :
  (forall m thr n_past logits mpt,
     fst (model_eval m thr n_past [] logits mpt) = true) ->
  session_ok (self w) ->
  tokens <> [] ->
  Z.of_nat (length tokens) <= CInt.INT_MAX ->
  BatchEval fuel tokens 0 threads w = OutOfFuel.
Proof.
  intros Hacc Hok Hne Hlen. unfold BatchEval.
  rewrite to_int_small by (unfold CInt.INT_MIN, CInt.INT_MAX in *; lia).
  assert (Hpos : 0 < Z.of_nat (length tokens)).
  { destruct tokens; [congruence|simpl; lia]. }
  revert w Hok. induction fuel as [|fuel IH]; intros w Hok; [reflexivity|].
  cbn [BatchEval_loop].
  destruct (Z.ltb_spec 0 (Z.of_nat (length tokens))); [|lia].
  erewrite bind_defined by reflexivity.
  rewrite to_int_small by (unfold CInt.INT_MIN, CInt.INT_MAX in *; lia).
  erewrite bind_defined by (rewrite Z.min_l by lia; apply range_in; lia).
  simpl take.
  destruct (EvalInternal_run [] threads w Hok)
    as (ok & w1 & Hrun & _ & Hok1 & Hfst & _).
  { simpl. unfold CInt.INT_MAX. lia. }
  rewrite Hacc in Hfst. subst ok.
  rewrite (bind_run _ _ _ _ _ Hrun). cbn [negb].
  erewrite bind_defined by reflexivity.
  apply IH. exact Hok1.
Qed.

(** X12: when the batch size is at least the number of tokens, [BatchEval]
    is a single internal evaluation step on the whole sequence. *)
Theorem X12_BatchEval_single_batch (tokens : list gpt_vocab_id)
    (batch_size threads : Z) (fuel : nat) (w : World) :
  tokens <> [] ->
  Z.of_nat (length tokens) <= batch_size <= CInt.INT_MAX ->
  Z.of_nat (length tokens) <= 2 ^ 30 ->
  (length tokens < fuel)%nat ->
  BatchEval fuel tokens batch_size threads w = EvalInternal tokens threads w.
Proof.
  intros Hne Hbs Hlen Hfuel.
  assert (0 < Z.of_nat (length tokens)).
  { destruct tokens; [congruence|simpl; lia]. }
  rewrite BatchEval_as_chunks by (assumption || lia).
  rewrite chunks_cons by (assumption || lia).
  rewrite take_ge, drop_ge by lia. rewrite chunks_nil.
  cbn [EvalChunks]. unfold bind.
  destruct (EvalInternal tokens threads w) as [[ok w']| |]; [|reflexivity..].
  destruct ok; reflexivity.
Qed.


(** X13: within one [BatchEval] the context window slides from chunk to
    chunk: every chunk is evaluated with [n_past] computed from the
    occupancy the chunks before it have left in the recency buffer, with
    the same thread count throughout. The calls made are a prefix of that
    sequence, the whole of it when [BatchEval] succeeds. *)
Theorem X13_BatchEval_sliding_n_past (tokens : list gpt_vocab_id)
    (batch_size threads : Z) (fuel : nat) (w : World) :
  1 <= batch_size <= CInt.INT_MAX ->
  Z.of_nat (length tokens) <= 2 ^ 30 ->
  (length tokens < fuel)%nat ->
  session_ok (self w) ->
  exists ok w' k,
    BatchEval fuel tokens batch_size threads w = Ok (ok, w')
    /\ calls w'
       = calls w
         ++ take k (expected_evals (threads_used w threads) (n_ctx_ (self w))
                      (chunks (Z.to_nat batch_size) tokens)
                      (RingBuffer.Size (previous_tokens_ (self w))))
    /\ (k <= length (chunks (Z.to_nat batch_size) tokens))%nat
    /\ (ok = true -> k = length (chunks (Z.to_nat batch_size) tokens))
    /\ (ok = false -> (0 < k)%nat).
Proof.
  intros Hbs Hlen Hfuel Hok.
  rewrite BatchEval_as_chunks by assumption.
  pose proof (chunks_lengths_fit batch_size tokens Hbs) as Hfit.
  revert w Hok Hfit.
  generalize (chunks (Z.to_nat batch_size) tokens) as cs.
  induction cs as [|c cs IH]; intros w Hok Hfit.
  - exists true, w, 0%nat. simpl. rewrite app_nil_r.
    split; [reflexivity|]. split; [reflexivity|]. split; [lia|].
    split; [reflexivity|discriminate].
  - inversion Hfit as [|? ? Hc Hcs]; subst.
    destruct (EvalInternal_run c threads w Hok Hc)
      as (ok1 & w1 & Hrun & Hcalls & Hok1 & _ & Hbuf).
    pose proof (EvalInternal_frame c threads w ok1 w1 Hok Hc Hrun)
      as (F1 & _ & _ & _ & F5).
    cbn [EvalChunks expected_evals]. rewrite (bind_run _ _ _ _ _ Hrun).
    destruct ok1; cbn [negb].
    + destruct (IH w1 Hok1 Hcs) as (ok & w' & k & HE & Hk & Hle & Ht & Hf).
      exists ok, w', (S k). split; [exact HE|].
      destruct Hok as [Hwf Hctx].
      rewrite (AddAll_Size c _ _ Hwf Hbuf), <- Hctx in Hk.
      assert (Hthr : threads_used w1 threads = threads_used w threads).
      { unfold threads_used. rewrite F5. reflexivity. }
      rewrite Hthr, F1 in Hk.
      split.
      { rewrite Hk, Hcalls, <- app_assoc. reflexivity. }
      split; [simpl; lia|]. split; [intros E; simpl; rewrite (Ht E); reflexivity|].
      intros _. lia.
    + exists false, w1, 1%nat. split; [reflexivity|].
      split; [rewrite Hcalls; simpl; rewrite take_0; reflexivity|].
      split; [simpl; lia|]. split; [discriminate|]. intros _. lia.
Qed.

(** X14: evaluation never changes the context length, the vocabulary or
    the initialized flag: after [BatchEval], whether it succeeded or
    failed, the session is still well formed and [EosToken], [IsEosToken]
    and [Detokenize] answer as before. *)
Theorem X14_BatchEval_keeps_session (tokens : list gpt_vocab_id)
    (batch_size threads : Z) (fuel : nat) (w : World) :
  1 <= batch_size <= CInt.INT_MAX ->
  Z.of_nat (length tokens) <= 2 ^ 30 ->
  (length tokens < fuel)%nat ->
  session_ok (self w) ->
  exists ok w',
    BatchEval fuel tokens batch_size threads w = Ok (ok, w')
    /\ session_ok (self w')
    /\ n_ctx_ (self w') = n_ctx_ (self w)
    /\ vocab_ (self w') = vocab_ (self w)
    /\ initialized_ (self w') = initialized_ (self w)
    /\ EosToken (self w') = EosToken (self w)
    /\ (forall token,
          IsEosToken (self w') token = IsEosToken (self w) token
          /\ Detokenize (self w') token = Detokenize (self w) token).
Proof.
  intros Hbs Hlen Hfuel Hok.
  rewrite BatchEval_as_chunks by assumption.
  pose proof (chunks_lengths_fit batch_size tokens Hbs) as Hfit.
  destruct (EvalChunks_run threads _ w Hok Hfit)
    as (ok & w' & new & HE & _ & Hok' & _).
  destruct (EvalChunks_frame threads _ w ok w' Hok Hfit HE)
    as (F1 & F2 & F3 & _).
  exists ok, w'. split; [exact HE|]. split; [exact Hok'|].
  split; [exact F1|]. split; [exact F2|]. split; [exact F3|].
  unfold IsEosToken, EosToken, Detokenize. rewrite F2.
  split; [reflexivity|]. intros token. split; reflexivity.
Qed.

(** X15: the recency buffer a successful [BatchEval] leaves does not depend
    on the batch size or the thread count: it is the buffer before with all
    the tokens added in order, so it retains the last [capacity] of the old
    contents followed by the tokens. *)
Theorem X15_BatchEval_buffer_independent_of_batching
    (tokens : list gpt_vocab_id) (batch_size1 batch_size2 threads1 threads2 : Z)
    (fuel1 fuel2 : nat) (w w1 w2 : World) :
  1 <= batch_size1 <= CInt.INT_MAX ->
  1 <= batch_size2 <= CInt.INT_MAX ->
  Z.of_nat (length tokens) <= 2 ^ 30 ->
  (length tokens < fuel1)%nat -> (length tokens < fuel2)%nat ->
  session_ok (self w) ->
  BatchEval fuel1 tokens batch_size1 threads1 w = Ok (true, w1) ->
  BatchEval fuel2 tokens batch_size2 threads2 w = Ok (true, w2) ->
  previous_tokens_ (self w1) = previous_tokens_ (self w2)
  /\ RingBuffer.AddAll tokens (previous_tokens_ (self w))
     = Some (previous_tokens_ (self w1))
  /\ RingBuffer.contents (previous_tokens_ (self w1))
     = last_n (Z.to_nat (RingBuffer.capacity_ (previous_tokens_ (self w))))
         (RingBuffer.contents (previous_tokens_ (self w)) ++ tokens).
Proof.
  intros Hbs1 Hbs2 Hlen Hf1 Hf2 Hok H1 H2.
  assert (Gen : forall bs thr fuel v,
            1 <= bs <= CInt.INT_MAX -> (length tokens < fuel)%nat ->
            BatchEval fuel tokens bs thr w = Ok (true, v) ->
            RingBuffer.AddAll tokens (previous_tokens_ (self w))
            = Some (previous_tokens_ (self v))).
  { intros bs thr fuel v Hbs Hf HB.
    rewrite BatchEval_as_chunks in HB by assumption.
    destruct (EvalChunks_run thr _ w Hok (chunks_lengths_fit bs tokens Hbs))
      as (ok & w' & new & HE & _ & _ & _ & Hres).
    rewrite HB in HE. injection HE as <- <-.
    destruct Hres as [_ Hadd].
    rewrite chunks_concat in Hadd by lia. exact Hadd. }
  pose proof (Gen _ _ _ _ Hbs1 Hf1 H1) as G1.
  pose proof (Gen _ _ _ _ Hbs2 Hf2 H2) as G2.
  split; [congruence|]. split; [exact G1|].
  destruct Hok as [Hwf _].
  destruct (AddAll_wf tokens _ Hwf) as (rb & HA & _ & _ & Hcont).
  assert (rb = previous_tokens_ (self w1)) by congruence. subst rb.
  exact Hcont.
Qed.

(** X16: with a repetition penalty other than [1.0], [Sample] hands the
    sampler the ids of the newest [min(Size, n)] retained tokens, where [n]
    is [last_n_tokens], or the context length when [last_n_tokens] is
    negative, in which case these are the ids of all retained tokens. The
    sampler reads the last [VocabSize()] logits; the generator is seeded
    with [seed], or with the clock when [seed] is negative; the session
    itself is not changed. *)
Theorem X16_Sample_with_penalty (top_k : Z)
    (top_p temperature repetition_penalty : float)
    (last_n_tokens seed : Z) (w : World) (tail : list float) :
  session_ok (self w) ->
  logits_ (self w) <> [] ->
  logits_tail (self w) = Some tail ->
  float_ne repetition_penalty float_one = true ->
  let n := if last_n_tokens <? 0 then n_ctx_ (self w) else last_n_tokens in
  let recent : gset gpt_vocab_id :=
    list_to_set
      (last_n (Z.to_nat (Z.min (RingBuffer.Size (previous_tokens_ (self w))) n))
         (RingBuffer.contents (previous_tokens_ (self w)))) in
  let rng := CInt.to_uint32 (if seed <? 0 then CInt.to_int (clock w) else seed) in
  Sample top_k top_p temperature repetition_penalty last_n_tokens seed w
  = Ok (gpt_sample_top_k_top_p (vocab_ (self w)) tail top_k top_p temperature
          repetition_penalty recent rng,
        with_self (self w)
          [CallRng rng;
           CallSampler tail top_k top_p temperature repetition_penalty
             recent rng] w)
  /\ (exists skipped, logits_ (self w) = skipped ++ tail)
  /\ Z.of_nat (length tail) = VocabSize (self w)
  /\ (last_n_tokens < 0 ->
      recent = list_to_set (RingBuffer.tokens_ (previous_tokens_ (self w))))
  /\ (last_n_tokens = 0 -> recent = ∅).
Proof.
  intros Hok Hlog Htail Hrp n recent rng.
  destruct Hok as [Hwf Hctx].
  assert (Hn' : 0 <= n).
  { subst n. destruct (Z.ltb_spec last_n_tokens 0); [|lia].
    destruct Hwf as (Hc & _). lia. }
  split; [|split; [|split; [|split]]].
  - unfold Sample, bind, get. simpl.
    destruct (logits_ (self w)) as [|x l] eqn:El; [congruence|].
    unfold log, ret, defined, env. rewrite Hrp, Htail.
    unfold ContextLength. fold n.
    rewrite (GetRecent_nonneg n _ Hwf Hn'). fold recent.
    subst rng. destruct (seed <? 0); simpl; unfold with_self;
      rewrite <- app_assoc; reflexivity.
  - unfold logits_tail in Htail.
    destruct ((0 <=? VocabSize (self w))
              && (VocabSize (self w) <=? Z.of_nat (length (logits_ (self w)))));
      [|discriminate].
    injection Htail as <-. eexists. symmetry. apply take_drop.
  - unfold logits_tail in Htail.
    destruct (Z.leb_spec 0 (VocabSize (self w))); [|discriminate].
    destruct (Z.leb_spec (VocabSize (self w))
                (Z.of_nat (length (logits_ (self w))))); [|discriminate].
    simpl in Htail. injection Htail as <-. rewrite length_drop. lia.
  - intros Hneg. subst recent n.
    destruct (Z.ltb_spec last_n_tokens 0); [|lia].
    pose proof (Size_wf _ Hwf) as HS.
    pose proof (contents_length _ Hwf) as HL.
    rewrite last_n_all.
    + unfold RingBuffer.contents. rewrite list_to_set_app_L.
      rewrite (comm_L (∪)), <- list_to_set_app_L, take_drop. reflexivity.
    + destruct Hwf as (Hc & Hp & Hs). lia.
  - intros Hz. subst recent n. rewrite Hz. simpl.
    pose proof (Size_wf _ Hwf) as HS.
    rewrite Z.min_r by lia. simpl.
    unfold last_n. rewrite Nat.sub_0_r, drop_all. reflexivity.
Qed.

(** X17: an id that the vocabulary does not know detokenizes to the empty
    text and is never reported as end of sequence unless it is the
    canonical end-of-sequence id; an id other than the canonical one is
    reported only if the vocabulary maps it to the text "### End". *)
Theorem X17_IsEosToken_needs_known_text (s : LLM) (token : gpt_vocab_id) :
  token <> EosToken s ->
  (id_to_token (vocab_ s) !! token = None ->
   Detokenize s token = ""%string /\ IsEosToken s token = false)
  /\ (IsEosToken s token = true ->
      id_to_token (vocab_ s) !! token = Some "### End"%string).
Proof.
  intros Hne. unfold IsEosToken, Detokenize.
  destruct (Z.eqb_spec token (EosToken s)) as [E|_]; [contradiction|].
  split.
  - intros ->. split; [reflexivity|].
    destruct (special_tokens (vocab_ s)); reflexivity.
  - destruct (special_tokens (vocab_ s)); [discriminate|].
    destruct (id_to_token (vocab_ s) !! token) as [text|].
    + rewrite String.eqb_eq. intros ->. reflexivity.
    + discriminate.
Qed.

(** X18: [Init] does not validate the context length it loads. With a
    context length between 1 and 2^30 a successful [Init] leaves a
    well-formed session with an empty recency buffer; with a context length
    of zero or less [Init] still succeeds, and afterwards no evaluation
    step on a non-empty batch can succeed. *)
Theorem X18_Init_context_length (filename : string) (w : World) :
  initialized_ (self w) = false ->
  fst (model_load filename (model_ (self w)) (vocab_ (self w))) = true ->
  exists w',
    Init filename w = Ok (true, w')
    /\ n_ctx_ (self w')
       = hparams_n_ctx
           (fst (snd (model_load filename (model_ (self w)) (vocab_ (self w)))))
    /\ (0 < n_ctx_ (self w') <= 2 ^ 30 ->
        session_ok (self w')
        /\ RingBuffer.Size (previous_tokens_ (self w')) = 0)
    /\ (n_ctx_ (self w') <= 0 ->
        forall tokens threads w'',
          tokens <> [] ->
          EvalInternal tokens threads w' <> Ok (true, w'')).
Proof.
  intros Hi Hload.
  unfold Init, bind, get. simpl. rewrite Hi.
  unfold Load, bind, log, get, put, ret. simpl.
  destruct (model_load filename (model_ (self w)) (vocab_ (self w)))
    as [ok [m v]]. simpl in Hload. subst ok. simpl.
  eexists. split; [reflexivity|]. simpl. split; [reflexivity|]. split.
  - intros Hc. split; [|reflexivity].
    split; simpl; [apply wf_Init; exact Hc|reflexivity].
  - intros Hc tokens threads w'' Hne.
    unfold EvalInternal, bind, env, get, defined, ret. simpl.
    destruct (CInt.sub _ _); [|discriminate].
    unfold Eval, bind, log, get, put, ret. simpl.
    destruct (model_eval _ _ _ _ _ _) as [ok [[m' l] mpt]]. simpl.
    destruct ok; simpl; [|discriminate].
    destruct tokens as [|t ts]; [congruence|].
    change {| RingBuffer.capacity_ := hparams_n_ctx m;
              RingBuffer.tokens_ := []; RingBuffer.pos_ := 0 |}
      with (RingBuffer.Init (hparams_n_ctx m) (previous_tokens_ (self w))).
    rewrite AddAll_nonpositive_capacity by exact Hc. discriminate.
Qed.

(** X19: when logits are present but the vocabulary has more entries than
    the logits vector, [Sample] has no defined result, whatever the
    parameters: the slice handed to the sampler would start before the
    vector. *)
Theorem X19_Sample_short_logits (top_k : Z)
    (top_p temperature repetition_penalty : float)
    (last_n_tokens seed : Z) (w : World) :
  logits_ (self w) <> [] ->
  Z.of_nat (length (logits_ (self w))) < VocabSize (self w) ->
  Sample top_k top_p temperature repetition_penalty last_n_tokens seed w
  = Undefined.
Proof.
  intros Hlog Hshort.
  assert (Htail : logits_tail (self w) = None).
  { unfold logits_tail.
    destruct (Z.leb_spec (VocabSize (self w))
                (Z.of_nat (length (logits_ (self w))))); [lia|].
    rewrite andb_false_r. reflexivity. }
  unfold Sample, bind, get. simpl.
  destruct (logits_ (self w)) as [|x l] eqn:El; [congruence|].
  unfold log, ret, defined, env. rewrite Htail.
  destruct (seed <? 0); simpl;
    destruct (float_ne repetition_penalty float_one);
    try reflexivity;
    destruct (RingBuffer.GetRecent _ _); reflexivity.
Qed.

End Coverage.

Lemma X7_witness :
  exists w1,
    @Init Toy.arch "" (Toy.world Toy.fresh) = Ok (false, w1)
    /\ exists w2,
         @Init Toy.arch "model.bin" w1 = Ok (true, w2)
         /\ initialized_ (self w2) = true
         /\ calls w2 = [] ++ [CallLoad ""; CallLoad "model.bin"].
Proof.
  destruct (@X7_Init_can_be_retried Toy.arch "" "model.bin" (Toy.world Toy.fresh))
    as (w1 & H1 & _ & _ & H2).
  - reflexivity.
  - reflexivity.
  - exists w1. split; [exact H1|]. apply H2. reflexivity.
Defined.

(** A session that is reset after three tokens and one evaluation. *)
Lemma X8_witness :
  @Sample Toy.arch Toy.sampler 40 float_one float_one (S754_zero false) 64 7
    (Toy.world (Reset (Toy.session (RingBuffer.Make 8 [1; 2; 3] 3) [float_one])))
  = Ok (2, Toy.world (Reset (Toy.session (RingBuffer.Make 8 [1; 2; 3] 3)
                               [float_one]))).
Proof.
  destruct (@X8_Reset Toy.arch Toy.sampler
              (Toy.session (RingBuffer.Make 8 [1; 2; 3] 3) [float_one])
              (Toy.world (Reset (Toy.session (RingBuffer.Make 8 [1; 2; 3] 3)
                                   [float_one]))))
    as (_ & _ & _ & _ & _ & _ & _ & _ & HS & _).
  - reflexivity.
  - apply HS.
Defined.

(** A batch of nine tokens on a context of length 8. *)
Lemma X9_witness :
  exists ok w' thr n_past,
    @EvalInternal Toy.arch [1; 2; 3; 4; 5; 6; 7; 8; 9] (-1)
      (Toy.world (Toy.session (RingBuffer.Make 8 [1; 2] 2) []))
    = Ok (ok, w')
    /\ calls w' = [] ++ [CallEval [1; 2; 3; 4; 5; 6; 7; 8; 9] thr n_past]
    /\ n_past < 0.
Proof.
  destruct (@X9_n_past_bounds Toy.arch [1; 2; 3; 4; 5; 6; 7; 8; 9] (-1)
              (Toy.world (Toy.session (RingBuffer.Make 8 [1; 2] 2) [])))
    as (ok & w' & thr & n_past & Hrun & Hcalls & _ & _ & Hneg & _).
  - unfold session_ok, RingBuffer.wf. simpl. lia.
  - vm_compute. discriminate.
  - exists ok, w', thr, n_past. split; [exact Hrun|]. split; [exact Hcalls|].
    apply Hneg. simpl. lia.
Defined.

Lemma X10_witness :
  @BatchEval Toy.arch 3 [5; 6] (-4) 2
    (Toy.world (Toy.session (RingBuffer.Make 8 [] 0) []))
  = Undefined.
Proof.
  apply (@X10_BatchEval_empty_or_negative_batch_size Toy.arch [5; 6] (-4) 2 2
           (Toy.world (Toy.session (RingBuffer.Make 8 [] 0) []))).
  - discriminate.
  - vm_compute. discriminate.
  - lia.
Defined.

Lemma X11_witness :
  @BatchEval Toy.arch 50 [5; 6] 0 2
    (Toy.world (Toy.session (RingBuffer.Make 8 [] 0) []))
  = OutOfFuel.
Proof.
  apply (@X11_BatchEval_zero_batch_size Toy.arch [5; 6] 2 50
           (Toy.world (Toy.session (RingBuffer.Make 8 [] 0) []))).
  - intros. reflexivity.
  - unfold session_ok, RingBuffer.wf. simpl. lia.
  - discriminate.
  - vm_compute. discriminate.
Defined.

Lemma X12_witness :
  @BatchEval Toy.arch 3 [5; 6] 4 2
    (Toy.world (Toy.session (RingBuffer.Make 8 [] 0) []))
  = @EvalInternal Toy.arch [5; 6] 2
      (Toy.world (Toy.session (RingBuffer.Make 8 [] 0) [])).
Proof.
  apply (@X12_BatchEval_single_batch Toy.arch [5; 6] 4 2 3
           (Toy.world (Toy.session (RingBuffer.Make 8 [] 0) []))).
  - discriminate.
  - vm_compute. split; discriminate.
  - vm_compute. discriminate.
  - simpl. lia.
Defined.

(** Ten tokens in batches of four on a context of length 8: the calls carry
    [n_past] 0, 4 and 6. *)
Lemma X13_witness :
  exists ok w' k,
    @BatchEval Toy.arch 11 [1; 2; 3; 4; 5; 6; 7; 8; 9; 10] 4 2
      (Toy.world (Toy.session (RingBuffer.Make 8 [] 0) []))
    = Ok (ok, w')
    /\ calls w'
       = [] ++ take k [CallEval [1; 2; 3; 4] 2 0; CallEval [5; 6; 7; 8] 2 4;
                       CallEval [9; 10] 2 6].
Proof.
  destruct (@X13_BatchEval_sliding_n_past Toy.arch
              [1; 2; 3; 4; 5; 6; 7; 8; 9; 10] 4 2 11
              (Toy.world (Toy.session (RingBuffer.Make 8 [] 0) [])))
    as (ok & w' & k & Hrun & Hcalls & _).
  - vm_compute. split; discriminate.
  - vm_compute. discriminate.
  - simpl. lia.
  - unfold session_ok, RingBuffer.wf. simpl. lia.
  - exists ok, w', k. split; [exact Hrun|exact Hcalls].
Defined.

Lemma X14_witness :
  exists ok w',
    @BatchEval Toy.arch 11 [1; 2; 3; 4; 5; 6; -7; 8; 9; 10] 4 2
      (Toy.world (Toy.session (RingBuffer.Make 8 [] 0) []))
    = Ok (ok, w')
    /\ @EosToken Toy.arch (self w') = 2.
Proof.
  destruct (@X14_BatchEval_keeps_session Toy.arch
              [1; 2; 3; 4; 5; 6; -7; 8; 9; 10] 4 2 11
              (Toy.world (Toy.session (RingBuffer.Make 8 [] 0) [])))
    as (ok & w' & Hrun & _ & _ & _ & _ & Heos & _).
  - vm_compute. split; discriminate.
  - vm_compute. discriminate.
  - simpl. lia.
  - unfold session_ok, RingBuffer.wf. simpl. lia.
  - exists ok, w'. split; [exact Hrun|]. rewrite Heos. reflexivity.
Defined.

(** The same ten tokens in batches of four and of three. *)
Lemma X15_witness :
  exists w1 w2,
    @BatchEval Toy.arch 11 [1; 2; 3; 4; 5; 6; 7; 8; 9; 10] 4 2
      (Toy.world (Toy.session (RingBuffer.Make 8 [] 0) []))
    = Ok (true, w1)
    /\ @BatchEval Toy.arch 11 [1; 2; 3; 4; 5; 6; 7; 8; 9; 10] 3 (-1)
         (Toy.world (Toy.session (RingBuffer.Make 8 [] 0) []))
       = Ok (true, w2)
    /\ previous_tokens_ (self w1) = previous_tokens_ (self w2).
Proof.
  eexists _, _.
  assert (H1 : @BatchEval Toy.arch 11 [1; 2; 3; 4; 5; 6; 7; 8; 9; 10] 4 2
                 (Toy.world (Toy.session (RingBuffer.Make 8 [] 0) []))
               = Ok (true, _)) by (vm_compute; reflexivity).
  assert (H2 : @BatchEval Toy.arch 11 [1; 2; 3; 4; 5; 6; 7; 8; 9; 10] 3 (-1)
                 (Toy.world (Toy.session (RingBuffer.Make 8 [] 0) []))
               = Ok (true, _)) by (vm_compute; reflexivity).
  split; [exact H1|]. split; [exact H2|].
  apply (@X15_BatchEval_buffer_independent_of_batching Toy.arch
           [1; 2; 3; 4; 5; 6; 7; 8; 9; 10] 4 3 2 (-1) 11 11
           (Toy.world (Toy.session (RingBuffer.Make 8 [] 0) []))
           _ _).
  - vm_compute. split; discriminate.
  - vm_compute. split; discriminate.
  - vm_compute. discriminate.
  - simpl. lia.
  - simpl. lia.
  - unfold session_ok, RingBuffer.wf. simpl. lia.
  - exact H1.
  - exact H2.
Defined.

(** A penalty of 0.0 and the default window on a buffer holding 1, 2, 3. *)
Lemma X16_witness :
  exists token new,
    @Sample Toy.arch Toy.sampler 40 float_one float_one (S754_zero false) (-1) 7
      (Toy.world (Toy.session (RingBuffer.Make 8 [1; 2; 3] 3)
                    [S754_zero false; float_one]))
    = Ok (token,
          with_self (Toy.session (RingBuffer.Make 8 [1; 2; 3] 3)
                       [S754_zero false; float_one]) new
            (Toy.world (Toy.session (RingBuffer.Make 8 [1; 2; 3] 3)
                          [S754_zero false; float_one]))).
Proof.
  destruct (@X16_Sample_with_penalty Toy.arch Toy.sampler 40 float_one float_one
              (S754_zero false) (-1) 7
              (Toy.world (Toy.session (RingBuffer.Make 8 [1; 2; 3] 3)
                            [S754_zero false; float_one]))
              [S754_zero false; float_one])
    as (H & _).
  - unfold session_ok, RingBuffer.wf. simpl. lia.
  - discriminate.
  - reflexivity.
  - reflexivity.
  - eexists _, _. exact H.
Defined.

(** Id 4 is not in the vocabulary of [Toy]. *)
Lemma X17_witness :
  @Detokenize Toy.arch (Toy.session (RingBuffer.Make 8 [] 0) []) 4 = ""%string
  /\ @IsEosToken Toy.arch (Toy.session (RingBuffer.Make 8 [] 0) []) 4 = false.
Proof.
  destruct (@X17_IsEosToken_needs_known_text Toy.arch
              (Toy.session (RingBuffer.Make 8 [] 0) []) 4) as [H _].
  - vm_compute. discriminate.
  - apply H. reflexivity.
Defined.

Lemma X18_witness :
  exists w',
    @Init Toy.arch "model.bin" (Toy.world Toy.fresh) = Ok (true, w')
    /\ @session_ok Toy.arch (self w').
Proof.
  destruct (@X18_Init_context_length Toy.arch "model.bin" (Toy.world Toy.fresh))
    as (w' & HI & Hn & Hok & _).
  - reflexivity.
  - reflexivity.
  - exists w'. split; [exact HI|]. apply Hok.
    rewrite Hn. vm_compute. split; [reflexivity|discriminate].
Defined.

(** One logit for a vocabulary of two entries. *)
Lemma X19_witness :
  @Sample Toy.arch Toy.sampler 40 float_one float_one float_one 64 7
    (Toy.world (Toy.session (RingBuffer.Make 8 [] 0) [float_one]))
  = Undefined.
Proof.
  apply (@X19_Sample_short_logits Toy.arch Toy.sampler 40 float_one float_one
           float_one 64 7
           (Toy.world (Toy.session (RingBuffer.Make 8 [] 0) [float_one]))).
  - discriminate.
  - vm_compute. reflexivity.
Defined.
